(** * Theme resolution of the portfolio site (ThemeProvider.tsx)

    A shallow embedding of the [ThemeProvider] component and of the
    [useTheme] hook.  The browser objects the component talks to
    ([localStorage], [window.matchMedia], the class list of the document
    root, [console.warn]) and the two [useState] cells are fields of one
    state record; every function of the component is a computation in a
    state-and-exception monad over that record, so that a JavaScript
    [throw] keeps the mutations that preceded it, as it does in the
    source. *)

From stdpp Require Import gmap strings list.

Open Scope string_scope.
Open Scope list_scope.

(** ** Values *)

(** ['light' | 'dark'] *)
Inductive ResolvedTheme := light | dark.

(** ['light' | 'dark' | 'system'] *)
Inductive ThemePreference := pref_light | pref_dark | system.

Global Instance ResolvedTheme_eq_dec : EqDecision ResolvedTheme.
Proof. solve_decision. Defined.

Global Instance ThemePreference_eq_dec : EqDecision ThemePreference.
Proof. solve_decision. Defined.

(** The string a value is at run time. *)
Definition resolved_string (r : ResolvedTheme) : string :=
  match r with light => "light" | dark => "dark" end.

Definition preference_string (p : ThemePreference) : string :=
  match p with
  | pref_light => "light"
  | pref_dark => "dark"
  | system => "system"
  end.

(** ['light' | 'dark'] is a subtype of ['light' | 'dark' | 'system']. *)
Definition as_preference (r : ResolvedTheme) : ThemePreference :=
  match r with light => pref_light | dark => pref_dark end.

(** A thrown JavaScript value. *)
Inductive js_error := JsError (message : string).

Global Instance js_error_eq_dec : EqDecision js_error.
Proof. solve_decision. Defined.

(** A property of a host object that may be called: absent, working, or
    present and throwing when called. *)
Inductive capability := Missing | Available | Faulty (e : js_error).

(** The two ways of registering a listener on a [MediaQueryList]. *)
Inductive registration_api := ViaAddEventListener | ViaAddListener.

(** A function registered on the media query: a closure of
    [handleSystemThemeChange] (one is created by each run of the effect
    that subscribes; the number tells them apart), or a function of some
    other code. *)
Inductive callback := HandleSystemThemeChange (closure : nat) | OtherCallback (n : nat).

Global Instance registration_api_eq_dec : EqDecision registration_api.
Proof. solve_decision. Defined.

Global Instance callback_eq_dec : EqDecision callback.
Proof. solve_decision. Defined.

(** What [window.matchMedia('(prefers-color-scheme: dark)')] returns. *)
Record MediaQueryList := {
  matches : bool;
  addEventListener : capability;
  addListener : capability
}.

(** The host environment: what exists and what fails.  It does not change
    while the page lives. *)
Record Host := {
  has_window : bool;                    (* typeof window !== 'undefined' *)
  getItem_error : option js_error;      (* localStorage.getItem throws *)
  setItem_error : option js_error;      (* localStorage.setItem throws *)
  matchMedia_error : option js_error;   (* window.matchMedia throws or is absent *)
  addEventListener_cap : capability;    (* add/removeEventListener of the query *)
  addListener_cap : capability          (* add/removeListener of the query *)
}.

(** The cleanup function an effect run returned: which listener to remove,
    through which API. *)
Definition Cleanup : Type := registration_api * callback.

(** The state: the mutable part of the browser and the component
    instance. *)
Record State := {
  host : Host;
  items : gmap string string;           (* contents of localStorage *)
  prefers_dark : bool;                  (* the OS color scheme *)
  listeners : list (registration_api * callback);  (* on the media query *)
  classList : list string;              (* document.documentElement.classList *)
  warnings : list (string * js_error);  (* console.warn calls, oldest first *)
  theme : ThemePreference;              (* useState *)
  resolvedTheme : ResolvedTheme;        (* useState *)
  closures : nat;                       (* closures of the handler created so far *)
  rendered_theme : ThemePreference;     (* [theme] at the last run of the subscribing effect *)
  cleanup : option Cleanup              (* what that run returned *)
}.

Definition with_items (m : gmap string string) (s : State) : State :=
  {| host := host s; items := m; prefers_dark := prefers_dark s;
     listeners := listeners s; classList := classList s;
     warnings := warnings s; theme := theme s;
     resolvedTheme := resolvedTheme s; closures := closures s;
     rendered_theme := rendered_theme s; cleanup := cleanup s |}.

Definition with_prefers_dark (b : bool) (s : State) : State :=
  {| host := host s; items := items s; prefers_dark := b;
     listeners := listeners s; classList := classList s;
     warnings := warnings s; theme := theme s;
     resolvedTheme := resolvedTheme s; closures := closures s;
     rendered_theme := rendered_theme s; cleanup := cleanup s |}.

Definition with_listeners (l : list (registration_api * callback)) (s : State) : State :=
  {| host := host s; items := items s; prefers_dark := prefers_dark s;
     listeners := l; classList := classList s;
     warnings := warnings s; theme := theme s;
     resolvedTheme := resolvedTheme s; closures := closures s;
     rendered_theme := rendered_theme s; cleanup := cleanup s |}.

Definition with_classList (l : list string) (s : State) : State :=
  {| host := host s; items := items s; prefers_dark := prefers_dark s;
     listeners := listeners s; classList := l;
     warnings := warnings s; theme := theme s;
     resolvedTheme := resolvedTheme s; closures := closures s;
     rendered_theme := rendered_theme s; cleanup := cleanup s |}.

Definition with_warnings (l : list (string * js_error)) (s : State) : State :=
  {| host := host s; items := items s; prefers_dark := prefers_dark s;
     listeners := listeners s; classList := classList s;
     warnings := l; theme := theme s;
     resolvedTheme := resolvedTheme s; closures := closures s;
     rendered_theme := rendered_theme s; cleanup := cleanup s |}.

Definition with_theme (p : ThemePreference) (s : State) : State :=
  {| host := host s; items := items s; prefers_dark := prefers_dark s;
     listeners := listeners s; classList := classList s;
     warnings := warnings s; theme := p;
     resolvedTheme := resolvedTheme s; closures := closures s;
     rendered_theme := rendered_theme s; cleanup := cleanup s |}.

Definition with_resolvedTheme (r : ResolvedTheme) (s : State) : State :=
  {| host := host s; items := items s; prefers_dark := prefers_dark s;
     listeners := listeners s; classList := classList s;
     warnings := warnings s; theme := theme s;
     resolvedTheme := r; closures := closures s;
     rendered_theme := rendered_theme s; cleanup := cleanup s |}.

Definition with_closures (n : nat) (s : State) : State :=
  {| host := host s; items := items s; prefers_dark := prefers_dark s;
     listeners := listeners s; classList := classList s;
     warnings := warnings s; theme := theme s;
     resolvedTheme := resolvedTheme s; closures := n;
     rendered_theme := rendered_theme s; cleanup := cleanup s |}.

Definition with_subscription (p : ThemePreference) (c : option Cleanup) (s : State) : State :=
  {| host := host s; items := items s; prefers_dark := prefers_dark s;
     listeners := listeners s; classList := classList s;
     warnings := warnings s; theme := theme s;
     resolvedTheme := resolvedTheme s; closures := closures s;
     rendered_theme := p; cleanup := c |}.

(** ** The monad: state, and exceptions that keep the state *)

Inductive completion (A : Type) := Normal (a : A) | Throw (e : js_error).
Arguments Normal {A} a.
Arguments Throw {A} e.

Definition Eff (A : Type) : Type := State -> completion A * State.

Definition ret {A} (a : A) : Eff A := fun s => (Normal a, s).

Definition throw {A} (e : js_error) : Eff A := fun s => (Throw e, s).

Definition bind {A B} (m : Eff A) (k : A -> Eff B) : Eff B :=
  fun s =>
    match m s with
    | (Normal a, s') => k a s'
    | (Throw e, s') => (Throw e, s')
    end.

(** [try { m } catch (error) { h error }] *)
Definition try_catch {A} (m : Eff A) (h : js_error -> Eff A) : Eff A :=
  fun s =>
    match m s with
    | (Normal a, s') => (Normal a, s')
    | (Throw e, s') => h e s'
    end.

Definition gets {A} (f : State -> A) : Eff A := fun s => (Normal (f s), s).

Definition modify (f : State -> State) : Eff unit := fun s => (Normal tt, f s).

Declare Scope eff_scope.
Delimit Scope eff_scope with eff.
Bind Scope eff_scope with Eff.

Notation "'let!' x ':=' m 'in' k" := (bind m (fun x => k))
  (at level 10, x name, m at level 100, k at level 200) : eff_scope.
Notation "m ';;' k" := (bind m (fun _ => k))
  (at level 100, k at level 200, right associativity) : eff_scope.

Open Scope eff_scope.

(** ** The browser *)

(** [typeof window !== 'undefined'] *)
Definition window_defined : Eff bool := gets (fun s => has_window (host s)).

(** [localStorage.getItem(key)] *)
Definition localStorage_getItem (key : string) : Eff (option string) :=
  fun s =>
    match getItem_error (host s) with
    | Some e => (Throw e, s)
    | None => (Normal (items s !! key), s)
    end.

(** [localStorage.setItem(key, value)] *)
Definition localStorage_setItem (key value : string) : Eff unit :=
  fun s =>
    match setItem_error (host s) with
    | Some e => (Throw e, s)
    | None => (Normal tt, with_items (<[key := value]> (items s)) s)
    end.

(** [window.matchMedia('(prefers-color-scheme: dark)')] *)
Definition window_matchMedia : Eff MediaQueryList :=
  fun s =>
    match matchMedia_error (host s) with
    | Some e => (Throw e, s)
    | None =>
        (Normal {| matches := prefers_dark s;
                   addEventListener := addEventListener_cap (host s);
                   addListener := addListener_cap (host s) |}, s)
    end.

(** [console.warn(message, error)] *)
Definition console_warn (message : string) (error : js_error) : Eff unit :=
  modify (fun s => with_warnings (warnings s ++ [(message, error)]) s).

(** [root.classList.remove(...tokens)] *)
Definition classList_remove (tokens : list string) : Eff unit :=
  modify (fun s => with_classList (filter (fun c => c ∉ tokens) (classList s)) s).

(** [root.classList.add(token)]: a token list holds a token once. *)
Definition classList_add (token : string) : Eff unit :=
  modify (fun s =>
    if decide (token ∈ classList s) then s
    else with_classList (classList s ++ [token]) s).

(** Calling a method of the media query that may be absent or throw. *)
Definition call_capability (c : capability) (effect : State -> State) : Eff unit :=
  match c with
  | Missing => throw (JsError "is not a function")
  | Faulty e => throw e
  | Available => modify effect
  end.

(** [mediaQuery.addEventListener('change', f)] and [mediaQuery.addListener(f)]:
    a function already registered is not registered twice. *)
Definition register (api : registration_api) (f : callback) (s : State) : State :=
  if decide ((api, f) ∈ listeners s) then s
  else with_listeners (listeners s ++ [(api, f)]) s.

(** [mediaQuery.removeEventListener('change', f)] and
    [mediaQuery.removeListener(f)] *)
Definition unregister (api : registration_api) (f : callback) (s : State) : State :=
  with_listeners (filter (fun l => l ≠ (api, f)) (listeners s)) s.

(** The capability behind each of the two APIs (registration and
    removal come together). *)
Definition capability_in (h : Host) (api : registration_api) : capability :=
  match api with
  | ViaAddEventListener => addEventListener_cap h
  | ViaAddListener => addListener_cap h
  end.

(** [if (mediaQuery.addEventListener)]: is the property truthy *)
Definition truthy (c : capability) : bool :=
  match c with Missing => false | _ => true end.

(** ** The component

    [defaultTheme] and [storageKey] are the props of the provider; the
    functions below are the closures of one instance of it. *)

Section ThemeProvider.

Variable defaultTheme : ThemePreference.
Variable storageKey : string.

(** [useState] setters *)
Definition setThemeState (p : ThemePreference) : Eff unit := modify (with_theme p).

Definition setResolvedTheme (r : ResolvedTheme) : Eff unit := modify (with_resolvedTheme r).

(** Get system theme preference *)
Definition getSystemTheme : Eff ResolvedTheme :=
  let! w := window_defined in
  if negb w then ret light
  else
    try_catch
      (let! mq := window_matchMedia in
       ret (if matches mq then dark else light))
      (fun error =>
         console_warn "System theme detection failed, falling back to light theme:" error;;
         ret light).

(** [stored && ['light', 'dark', 'system'].includes(stored)], then the
    cast [stored as 'light' | 'dark' | 'system'] *)
Definition valid_theme (stored : option string) : option ThemePreference :=
  match stored with
  | None => None
  | Some v =>
      if decide (v = "") then None
      else if decide (v = "light") then Some pref_light
      else if decide (v = "dark") then Some pref_dark
      else if decide (v = "system") then Some system
      else None
  end.

(** Load theme from localStorage with error handling *)
Definition getStoredTheme : Eff (option ThemePreference) :=
  let! w := window_defined in
  if negb w then ret None
  else
    try_catch
      (let! stored := localStorage_getItem storageKey in
       ret (valid_theme stored))
      (fun error =>
         console_warn "Failed to read theme from localStorage:" error;;
         ret None).

(** Save theme to localStorage with error handling *)
Definition saveTheme (newTheme : ThemePreference) : Eff unit :=
  let! w := window_defined in
  if negb w then ret tt
  else
    try_catch
      (localStorage_setItem storageKey (preference_string newTheme))
      (fun error => console_warn "Failed to save theme to localStorage:" error).

(** Resolve the actual theme (light or dark) based on current theme setting *)
Definition resolveTheme (currentTheme : ThemePreference) : Eff ResolvedTheme :=
  match currentTheme with
  | system => getSystemTheme
  | pref_light => ret light
  | pref_dark => ret dark
  end.

(** Apply theme to document *)
Definition applyTheme (newResolvedTheme : ResolvedTheme) : Eff unit :=
  let! w := window_defined in
  if negb w then ret tt
  else
    classList_remove ["light"; "dark"];;
    classList_add (resolved_string newResolvedTheme);;
    setResolvedTheme newResolvedTheme.

(** Set theme function that updates both state and localStorage *)
Definition setTheme (newTheme : ThemePreference) : Eff unit :=
  setThemeState newTheme;;
  saveTheme newTheme;;
  let! newResolvedTheme := resolveTheme newTheme in
  applyTheme newResolvedTheme.

(** [getStoredTheme() || defaultTheme] *)
Definition or_default (stored : option ThemePreference) : ThemePreference :=
  match stored with Some p => p | None => defaultTheme end.

(** Initialize theme on mount: the body of the first effect. *)
Definition initializeEffect : Eff unit :=
  try_catch
    (let! stored := getStoredTheme in
     let storedTheme := or_default stored in
     let! initialResolvedTheme := resolveTheme storedTheme in
     setThemeState storedTheme;;
     setResolvedTheme initialResolvedTheme;;
     applyTheme initialResolvedTheme)
    (fun error =>
       console_warn "Theme initialization failed, using default theme:" error;;
       setThemeState defaultTheme;;
       setResolvedTheme light;;
       applyTheme light).

(** The listener of the second effect. *)
Definition handleSystemThemeChange (e_matches : bool) : Eff unit :=
  let newSystemTheme := if e_matches then dark else light in
  setResolvedTheme newSystemTheme;;
  applyTheme newSystemTheme.

(** [const handleSystemThemeChange = (e) => ...]: each run of the effect
    makes a new function object. *)
Definition new_closure : Eff callback :=
  fun s => (Normal (HandleSystemThemeChange (closures s)), with_closures (S (closures s)) s).

(** Listen for system theme changes when theme is set to 'system': the
    body of the second effect, run with the [theme] of the render it
    belongs to.  It returns its cleanup function, if it has one. *)
Definition systemChangeEffect (theme : ThemePreference) : Eff (option Cleanup) :=
  let! w := window_defined in
  if negb w || negb (bool_decide (theme = system)) then ret None
  else
    let! mediaQuery := window_matchMedia in
    let! handler := new_closure in
    try_catch
      (if truthy (addEventListener mediaQuery) then
         call_capability (addEventListener mediaQuery) (register ViaAddEventListener handler);;
         ret (Some (ViaAddEventListener, handler))
       else if truthy (addListener mediaQuery) then
         call_capability (addListener mediaQuery) (register ViaAddListener handler);;
         ret (Some (ViaAddListener, handler))
       else ret None)
      (fun error =>
         console_warn "Failed to listen for system theme changes:" error;;
         ret None).

(** [() => mediaQuery.removeEventListener('change', handleSystemThemeChange)]
    and [() => mediaQuery.removeListener(handleSystemThemeChange)]: the
    cleanup function the effect returned, called. *)
Definition runCleanup (c : Cleanup) : Eff unit :=
  let! remove := gets (fun s => capability_in (host s) (c.1)) in
  call_capability remove (unregister (c.1) (c.2)).

(** [const contextValue: ThemeContextType = { theme, setTheme, resolvedTheme }] *)
Record ThemeContextType := {
  ctx_theme : ThemePreference;
  ctx_setTheme : ThemePreference -> Eff unit;
  ctx_resolvedTheme : ResolvedTheme
}.

Definition contextValue : Eff ThemeContextType :=
  gets (fun s =>
    {| ctx_theme := theme s; ctx_setTheme := setTheme; ctx_resolvedTheme := resolvedTheme s |}).

(** *** The operations under the names of the specification

    [initialize] is the first effect, and what the provider shows of the
    two state cells once it has run. *)
Definition initialize : Eff (ThemePreference * ResolvedTheme) :=
  initializeEffect;;
  let! context := contextValue in
  ret (ctx_theme context, ctx_resolvedTheme context).

(** *** The life of one instance, by React's rules for effects

    An effect runs after the first render, and again after a render in
    which one of its dependencies differs from the last run; before it
    runs again, and when the component goes away, the cleanup function of
    its last run is called.  An effect that throws ends the instance. *)

(** The second effect, whose one dependency is [theme], after a render. *)
Definition commitSystemChangeEffect : Eff unit :=
  let! current := gets theme in
  let! last := gets rendered_theme in
  if bool_decide (current = last) then ret tt
  else
    let! previous := gets cleanup in
    match previous with Some c => runCleanup c | None => ret tt end;;
    modify (with_subscription current None);;
    let! c := systemChangeEffect current in
    modify (with_subscription current c).

(** First render with [useState(defaultTheme)] and [useState('light')],
    both effects in the order of the source with the [theme] of that
    render, then the render the first effect asked for. *)
Definition mount : Eff unit :=
  modify (fun s => with_subscription defaultTheme None
                     (with_resolvedTheme light (with_theme defaultTheme s)));;
  initializeEffect;;
  let! c := systemChangeEffect defaultTheme in
  modify (with_subscription defaultTheme c);;
  commitSystemChangeEffect.

Definition unmount : Eff unit :=
  let! previous := gets cleanup in
  match previous with
  | Some c => runCleanup c;; modify (fun s => with_subscription (rendered_theme s) None s)
  | None => ret tt
  end.

(** The browser calls a registered function with the change event. *)
Definition invoke (f : callback) (e_matches : bool) : Eff unit :=
  match f with
  | HandleSystemThemeChange _ => handleSystemThemeChange e_matches
  | OtherCallback _ => ret tt
  end.

Fixpoint dispatch (registered : list (registration_api * callback)) (e_matches : bool) : Eff unit :=
  match registered with
  | [] => ret tt
  | l :: rest => invoke (l.2) e_matches;; dispatch rest e_matches
  end.

(** The OS color scheme changes: the query changes its answer and the
    registered functions are called in the order of registration. *)
Definition systemThemeChanges (prefersDark : bool) : Eff unit :=
  modify (with_prefers_dark prefersDark);;
  let! registered := gets listeners in
  dispatch registered prefersDark.

(** What happens to a mounted instance. *)
Inductive event :=
  | UserSetsTheme (newTheme : ThemePreference)
  | SystemThemeChanges (prefersDark : bool).

Definition step (ev : event) : Eff unit :=
  match ev with
  | UserSetsTheme newTheme => setTheme newTheme;; commitSystemChangeEffect
  | SystemThemeChanges prefersDark => systemThemeChanges prefersDark;; commitSystemChangeEffect
  end.

Fixpoint run (evs : list event) : Eff unit :=
  match evs with
  | [] => ret tt
  | ev :: rest => step ev;; run rest
  end.

End ThemeProvider.

(** ** The hook *)

(** [useContext(ThemeContext)]: the value of the nearest enclosing
    provider, [undefined] when there is none. *)
Definition useContext (providers : list ThemeContextType) : option ThemeContextType :=
  head providers.

(** Hook to use the theme context *)
Definition useTheme (providers : list ThemeContextType) : Eff ThemeContextType :=
  match useContext providers with
  | None => throw (JsError "useTheme must be used within a ThemeProvider")
  | Some context => ret context
  end.

(** ** What the specification observes *)

(** The OS color scheme as a theme. *)
Definition OSColorScheme (s : State) : ResolvedTheme :=
  if prefers_dark s then dark else light.

(** The theme markers on the render target. *)
Definition marker_present (r : ResolvedTheme) (s : State) : Prop :=
  resolved_string r ∈ classList s.

Definition other (r : ResolvedTheme) : ResolvedTheme :=
  match r with light => dark | dark => light end.

(** Exactly the marker of [r] is on the render target. *)
Definition marker_is (r : ResolvedTheme) (s : State) : Prop :=
  marker_present r s ∧ ¬ marker_present (other r) s.

(** The functions of the component that are registered on the media
    query. *)
Definition is_own (f : callback) : bool :=
  match f with HandleSystemThemeChange _ => true | OtherCallback _ => false end.

Definition own_listeners (s : State) : list (registration_api * callback) :=
  filter (fun l => is_own (l.2)) (listeners s).

(** How the data model resolves a preference against the OS signal: a
    literal preference is its own resolution, [system] is what the OS
    reports, and [light] when the OS cannot be asked. *)
Definition resolves_to (p : ThemePreference) (s : State) (r : ResolvedTheme) : Prop :=
  (p ≠ system → as_preference r = p) ∧
  (p = system → matchMedia_error (host s) = None → r = OSColorScheme s) ∧
  (p = system → matchMedia_error (host s) ≠ None → r = light).

(** The warnings of the three recoveries. *)
Definition detection_warning (e : js_error) : string * js_error :=
  ("System theme detection failed, falling back to light theme:", e).

Definition read_warning (e : js_error) : string * js_error :=
  ("Failed to read theme from localStorage:", e).

Definition save_warning (e : js_error) : string * js_error :=
  ("Failed to save theme to localStorage:", e).

(** The warnings a resolution of [p] logs: one, when [p] is [system] and
    asking the OS fails. *)
Definition resolution_warnings (p : ThemePreference) (s : State) : list (string * js_error) :=
  match p, matchMedia_error (host s) with
  | system, Some e => [detection_warning e]
  | _, _ => []
  end.

(** *** Closed forms of the state the operations leave (with a window)

    The lemmas below show that the source functions compute these. *)

Definition resolution (p : ThemePreference) (s : State) : ResolvedTheme :=
  match p with
  | pref_light => light
  | pref_dark => dark
  | system =>
      match matchMedia_error (host s) with
      | None => OSColorScheme s
      | Some _ => light
      end
  end.

Definition warned (ws : list (string * js_error)) (s : State) : State :=
  match ws with
  | [] => s
  | _ => with_warnings (warnings s ++ ws) s
  end.

Definition saved (key : string) (p : ThemePreference) (s : State) : State :=
  match setItem_error (host s) with
  | None => with_items (<[key := preference_string p]> (items s)) s
  | Some e => warned [save_warning e] s
  end.

Definition swapped (r : ResolvedTheme) (classes : list string) : list string :=
  filter (fun c => c ∉ ["light"; "dark"]) classes ++ [resolved_string r].

Definition applied (r : ResolvedTheme) (s : State) : State :=
  with_resolvedTheme r (with_classList (swapped r (classList s)) s).

Definition setTheme_outcome (key : string) (p : ThemePreference) (s : State) : State :=
  applied (resolution p s)
    (warned (resolution_warnings p s) (saved key p (with_theme p s))).

(** What a read of the stored preference gives. *)
Definition persisted (key : string) (s : State) : option ThemePreference :=
  match getItem_error (host s) with
  | None => valid_theme (items s !! key)
  | Some _ => None
  end.

Definition read_warnings (s : State) : list (string * js_error) :=
  match getItem_error (host s) with
  | None => []
  | Some e => [read_warning e]
  end.

Definition initialize_outcome (d : ThemePreference) (key : string) (s : State) : State :=
  let p := or_default d (persisted key s) in
  applied (resolution p s)
    (with_theme p (warned (resolution_warnings p s) (warned (read_warnings s) s))).

(** *** Invariants of the life of an instance *)

(** What the subscribing effect and its cleanup leave alone. *)
Definition same_theme (s s' : State) : Prop :=
  host s' = host s ∧ items s' = items s ∧ prefers_dark s' = prefers_dark s ∧
  classList s' = classList s ∧ theme s' = theme s ∧
  resolvedTheme s' = resolvedTheme s.

(** The media query can register a listener through one of the two APIs,
    in the order the effect tries them. *)
Definition registrable (h : Host) : Prop :=
  addEventListener_cap h = Available ∨
  (addEventListener_cap h = Missing ∧ addListener_cap h = Available).

(** Every closure of the handler that is registered was created by this
    instance. *)
Definition closures_bounded (s : State) : Prop :=
  ∀ api n, (api, HandleSystemThemeChange n) ∈ listeners s → n < closures s.

(** After a run of the subscribing effect: the one listener of the
    instance on the media query is the one the cleanup function of that
    run removes, there is one only when the run was for [system], and
    there is one when the run was for [system] and the query can register
    it. *)
Definition subscribed (s : State) : Prop :=
  has_window (host s) = true ∧
  own_listeners s = match cleanup s with Some c => [c] | None => [] end ∧
  closures_bounded s ∧
  (∀ c, cleanup s = Some c →
        rendered_theme s = system ∧ capability_in (host s) (c.1) = Available) ∧
  (rendered_theme s = system → registrable (host s) → cleanup s ≠ None).

(** Between two events the effect has run for the current [theme]. *)
Definition subscription_invariant (s : State) : Prop :=
  theme s = rendered_theme s ∧ subscribed s.

(** What the operations on the theme leave alone. *)
Definition same_subscription (s s' : State) : Prop :=
  host s' = host s ∧ listeners s' = listeners s ∧ closures s' = closures s ∧
  rendered_theme s' = rendered_theme s ∧ cleanup s' = cleanup s.

(** The state the subscribing effect leaves when it runs for [system]. *)
Definition listening (s : State) : completion (option Cleanup) * State :=
  match matchMedia_error (host s) with
  | Some e => (Throw e, s)
  | None =>
      let handler := HandleSystemThemeChange (closures s) in
      let s1 := with_closures (S (closures s)) s in
      let failed e :=
        (Normal None,
         with_warnings (warnings s1 ++ [("Failed to listen for system theme changes:", e)]) s1) in
      match addEventListener_cap (host s) with
      | Available =>
          (Normal (Some (ViaAddEventListener, handler)),
           register ViaAddEventListener handler s1)
      | Faulty e => failed e
      | Missing =>
          match addListener_cap (host s) with
          | Available =>
              (Normal (Some (ViaAddListener, handler)),
               register ViaAddListener handler s1)
          | Faulty e => failed e
          | Missing => (Normal None, s1)
          end
      end
  end.

(** The render target carries exactly the marker of [resolvedTheme]. *)
Definition themed (s : State) : Prop := marker_is (resolvedTheme s) s.

(** The effect subscribes through [api]: it registers the closure it
    made, through that API, and returns the cleanup function for it; from
    then on a change of the OS signal sets [resolvedTheme]; the cleanup
    function leaves the listeners of the media query as they were before
    the effect ran, and after it a change of the OS signal changes neither
    [resolvedTheme] nor the render target. *)
Definition subscribes_through (api : registration_api) (s : State) : Prop :=
  let handler := HandleSystemThemeChange (closures s) in
  ∃ s1,
    systemChangeEffect system s = (Normal (Some (api, handler)), s1) ∧
    listeners s1 = listeners s ++ [(api, handler)] ∧
    (∀ b, ∃ s', systemThemeChanges b s1 = (Normal tt, s') ∧
                resolvedTheme s' = (if b then dark else light)) ∧
    ∃ s2,
      runCleanup (api, handler) s1 = (Normal tt, s2) ∧
      listeners s2 = listeners s ∧
      (∀ b, ∃ s', systemThemeChanges b s2 = (Normal tt, s') ∧
                  resolvedTheme s' = resolvedTheme s2 ∧
                  classList s' = classList s2).

(** *** Pages to run the component on *)

(** A browser in which everything works. *)
Definition browser : Host :=
  {| has_window := true; getItem_error := None; setItem_error := None;
     matchMedia_error := None; addEventListener_cap := Available;
     addListener_cap := Available |}.

(** A browser whose storage throws on read and on write (private
    browsing). *)
Definition private_browser : Host :=
  {| has_window := true;
     getItem_error := Some (JsError "localStorage unavailable");
     setItem_error := Some (JsError "localStorage unavailable");
     matchMedia_error := None; addEventListener_cap := Available;
     addListener_cap := Available |}.

(** A browser without [matchMedia]. *)
Definition old_browser : Host :=
  {| has_window := true; getItem_error := None; setItem_error := None;
     matchMedia_error := Some (JsError "matchMedia not supported");
     addEventListener_cap := Missing; addListener_cap := Missing |}.

(** A browser whose media queries only have [addListener]. *)
Definition legacy_browser : Host :=
  {| has_window := true; getItem_error := None; setItem_error := None;
     matchMedia_error := None; addEventListener_cap := Missing;
     addListener_cap := Available |}.

(** A page just loaded, before the provider is mounted: the storage and
    the OS color scheme are what they are, the document root has the
    classes of the markup, some other code listens to the media query. *)
Definition loaded (h : Host) (stored : gmap string string) (prefersDark : bool) : State :=
  {| host := h; items := stored; prefers_dark := prefersDark;
     listeners := [(ViaAddEventListener, OtherCallback 0)];
     classList := ["scroll-smooth"]; warnings := [];
     theme := system; resolvedTheme := light; closures := 0;
     rendered_theme := system; cleanup := None |}.

(** What a test looks at after a run. *)
Definition observed (r : completion unit * State) :=
  (r.1, theme (r.2), resolvedTheme (r.2), classList (r.2),
   items (r.2) !! "portfolio-theme", length (warnings (r.2)), own_listeners (r.2)).

(** ** The toggles (ThemeToggle.tsx)

    The two buttons that call [setTheme].  Each reads
    [{ theme, setTheme, resolvedTheme }] from [useTheme()] when it is
    rendered; its click handler is a closure over those values. *)

Module ThemeToggle.

(** Cycle through themes: light -> dark -> system -> light.  (The
    [default:] of the [switch] cannot be reached: [theme] has one of the
    three values.) *)
Definition handleThemeToggle (context : ThemeContextType) : Eff unit :=
  match ctx_theme context with
  | pref_light => ctx_setTheme context pref_dark
  | pref_dark => ctx_setTheme context system
  | system => ctx_setTheme context pref_light
  end.

(** Get display text for current theme *)
Definition getThemeDisplayText (context : ThemeContextType) : string :=
  match ctx_theme context with
  | pref_light => "Light"
  | pref_dark => "Dark"
  | system =>
      String.append "System ("
        (String.append (resolved_string (ctx_resolvedTheme context)) ")")
  end.

End ThemeToggle.

Module ThemeToggleIcon.

(** Simple toggle between light and dark (no system option) *)
Definition handleThemeToggle (context : ThemeContextType) : Eff unit :=
  ctx_setTheme context
    (if decide (ctx_resolvedTheme context = light) then pref_dark else pref_light).

Definition getAriaLabel (context : ThemeContextType) : string :=
  String.append "Switch to "
    (String.append
       (if decide (ctx_resolvedTheme context = light) then "dark" else "light")
       " theme").

End ThemeToggleIcon.

(** A click on a toggle rendered under the provider with key
    [storageKey]: the handler of the last render, which read the context
    of the provider through [useTheme]. *)
Definition click (handler : ThemeContextType -> Eff unit) (storageKey : string) : Eff unit :=
  let! provided := contextValue storageKey in
  let! context := useTheme [provided] in
  handler context.

(** *** Observations on a whole life of an instance *)

(** A life: mounting, then the events. *)
Definition session (d : ThemePreference) (key : string) (evs : list event) : Eff unit :=
  mount d key;; run key evs.

(** The last preference the user chose among the events, [p] when the
    user chose none. *)
Fixpoint last_choice (evs : list event) (p : ThemePreference) : ThemePreference :=
  match evs with
  | [] => p
  | UserSetsTheme q :: rest => last_choice rest q
  | SystemThemeChanges _ :: rest => last_choice rest p
  end.

(** The storage after the events when every write succeeds. *)
Fixpoint stored_after (key : string) (evs : list event) (m : gmap string string)
    : gmap string string :=
  match evs with
  | [] => m
  | UserSetsTheme q :: rest => stored_after key rest (<[key := preference_string q]> m)
  | SystemThemeChanges _ :: rest => stored_after key rest m
  end.

(** The resolved theme agrees with the preference: a literal preference
    is the resolved theme, and under [system] (when the media query can
    register a listener) the resolved theme is what the OS reports. *)
Definition settled (s : State) : Prop :=
  (theme s ≠ system → as_preference (resolvedTheme s) = theme s) ∧
  (theme s = system → registrable (host s) → resolvedTheme s = OSColorScheme s).

(** The functions of other code that are registered on the media query. *)
Definition foreign_listeners (s : State) : list (registration_api * callback) :=
  filter (fun l => ¬ is_own (l.2)) (listeners s).

(** A browser in which nothing throws. *)
Definition healthy (h : Host) : Prop :=
  has_window h = true ∧ getItem_error h = None ∧ setItem_error h = None ∧
  matchMedia_error h = None ∧
  (∀ e, addEventListener_cap h ≠ Faulty e) ∧ (∀ e, addListener_cap h ≠ Faulty e).

(** The classes of the document root that are not theme markers. *)
Definition other_classes (classes : list string) : list string :=
  filter (fun c => c ∉ ["light"; "dark"]) classes.

(** A server: no window. *)
Definition server : Host :=
  {| has_window := false; getItem_error := None; setItem_error := None;
     matchMedia_error := None; addEventListener_cap := Missing;
     addListener_cap := Missing |}.

(** A browser whose storage is full: reads work, writes throw. *)
Definition full_storage_browser : Host :=
  {| has_window := true; getItem_error := None;
     setItem_error := Some (JsError "QuotaExceededError");
     matchMedia_error := None; addEventListener_cap := Available;
     addListener_cap := Available |}.

(** Nothing of the browser differs between the two states: storage,
    class list of the root, listeners of the media query, log. *)
Definition same_browser (s s' : State) : Prop :=
  host s' = host s ∧ items s' = items s ∧ classList s' = classList s ∧
  listeners s' = listeners s ∧ warnings s' = warnings s.

(** A click as the user sees it: the handler, then the render the change
    of state asks for, with the subscribing effect when [theme]
    changed. *)
Definition clickAndRender (handler : ThemeContextType -> Eff unit) (storageKey : string)
    : Eff unit :=
  click handler storageKey;; commitSystemChangeEffect.

(** ** Proofs *)

(** Unfolding of the monad and of the browser primitives. *)
Ltac eff_unfold :=
  unfold bind, try_catch, ret, throw, gets, modify, window_defined,
    localStorage_getItem, localStorage_setItem, window_matchMedia,
    console_warn, classList_remove, classList_add, setThemeState,
    setResolvedTheme in *.

Ltac eff_simpl := eff_unfold; simpl in *.

Section Resolution.

Variable s : State.
Hypothesis window : has_window (host s) = true.

Lemma getSystemTheme_supported :
  matchMedia_error (host s) = None →
  getSystemTheme s = (Normal (OSColorScheme s), s).
Proof.
  intros Hmm. unfold getSystemTheme, OSColorScheme. eff_simpl.
  rewrite window. simpl. rewrite Hmm. reflexivity.
Qed.

Lemma getSystemTheme_unsupported e :
  matchMedia_error (host s) = Some e →
  getSystemTheme s = (Normal light, with_warnings (warnings s ++ [detection_warning e]) s).
Proof.
  intros Hmm. unfold getSystemTheme. eff_simpl.
  rewrite window. simpl. rewrite Hmm. reflexivity.
Qed.

End Resolution.

Example resolveTheme_system_dark :
  (resolveTheme system (loaded browser ∅ true)).1 = Normal dark ∧
  (resolveTheme pref_light (loaded browser ∅ true)).1 = Normal light.
Proof. split; reflexivity. Qed.

(** C1. With a window and an OS signal that answers [v], [resolveTheme]
    returns normally and leaves the state as it was; a preference other
    than [system] resolves to itself and [system] resolves to [v]; the
    result is the string 'light' or 'dark' and never 'system'. *)
Theorem resolveTheme_pure_total (p : ThemePreference) (v : ResolvedTheme) (s : State) :
  has_window (host s) = true →
  matchMedia_error (host s) = None →
  OSColorScheme s = v →
  ∃ r, resolveTheme p s = (Normal r, s) ∧
       (p ≠ system → as_preference r = p) ∧
       (p = system → r = v) ∧
       (resolved_string r = "light" ∨ resolved_string r = "dark") ∧
       resolved_string r ≠ "system".
Proof.
  intros Hw Hmm Hv. destruct p; simpl.
  - exists light. repeat split; auto; discriminate.
  - exists dark. repeat split; auto; discriminate.
  - exists v. rewrite getSystemTheme_supported by assumption.
    rewrite Hv. repeat split; try congruence.
    + destruct v; auto.
    + destruct v; discriminate.
Qed.

(** *** The operations compute their closed forms *)

Lemma resolution_resolves p s : resolves_to p s (resolution p s).
Proof.
  unfold resolves_to, resolution.
  destruct p; repeat split; try congruence; intros _;
    destruct (matchMedia_error (host s)); congruence.
Qed.

Lemma resolves_to_unique p s r r' : resolves_to p s r → resolves_to p s r' → r = r'.
Proof.
  intros (H1 & H2 & H3) (H1' & H2' & H3').
  destruct (decide (p = system)) as [->|Hp].
  - destruct (matchMedia_error (host s)) eqn:E.
    + rewrite H3, H3'; congruence.
    + rewrite H2, H2'; congruence.
  - specialize (H1 Hp). specialize (H1' Hp).
    destruct r, r'; simpl in *; congruence.
Qed.

Lemma marker_filtered (r : ResolvedTheme) (classes : list string) :
  resolved_string r ∉ filter (fun c => c ∉ ["light"; "dark"]) classes.
Proof.
  intros [Hin _]%list_elem_of_filter. apply Hin.
  destruct r; simpl; set_solver.
Qed.

Lemma resolveTheme_exact p s :
  has_window (host s) = true →
  resolveTheme p s = (Normal (resolution p s), warned (resolution_warnings p s) s).
Proof.
  intros Hw. unfold resolution, resolution_warnings.
  destruct p; simpl; try reflexivity.
  destruct (matchMedia_error (host s)) as [e|] eqn:E.
  - rewrite (getSystemTheme_unsupported s Hw e E). reflexivity.
  - rewrite (getSystemTheme_supported s Hw E). reflexivity.
Qed.

Lemma applyTheme_exact r s :
  has_window (host s) = true →
  applyTheme r s = (Normal tt, applied r s).
Proof.
  intros Hw. unfold applyTheme, applied, swapped. eff_simpl.
  rewrite Hw. simpl.
  destruct (decide _) as [Hin|_]; [|reflexivity].
  exfalso. exact (marker_filtered r _ Hin).
Qed.

Lemma saveTheme_exact key p s :
  has_window (host s) = true →
  saveTheme key p s = (Normal tt, saved key p s).
Proof.
  intros Hw. unfold saveTheme, saved. eff_simpl. rewrite Hw. simpl.
  destruct (setItem_error (host s)); reflexivity.
Qed.

Lemma getStoredTheme_exact key s :
  has_window (host s) = true →
  getStoredTheme key s = (Normal (persisted key s), warned (read_warnings s) s).
Proof.
  intros Hw. unfold getStoredTheme, persisted, read_warnings. eff_simpl.
  rewrite Hw. simpl. destruct (getItem_error (host s)); reflexivity.
Qed.

Lemma host_warned ws s : host (warned ws s) = host s.
Proof. destruct ws; reflexivity. Qed.

Lemma host_saved key p s : host (saved key p s) = host s.
Proof. unfold saved. destruct (setItem_error (host s)); reflexivity. Qed.

Lemma setTheme_exact key p s :
  has_window (host s) = true →
  setTheme key p s = (Normal tt, setTheme_outcome key p s).
Proof.
  intros Hw. unfold setTheme, setTheme_outcome, bind at 1 2 3, setThemeState, modify.
  rewrite saveTheme_exact by exact Hw.
  set (s1 := saved key p (with_theme p s)).
  assert (Hh : host s1 = host s) by (unfold s1; rewrite host_saved; reflexivity).
  rewrite resolveTheme_exact by (rewrite Hh; exact Hw).
  assert (Hres : resolution p s1 = resolution p s).
  { unfold resolution, OSColorScheme. rewrite Hh.
    replace (prefers_dark s1) with (prefers_dark s); [reflexivity|].
    unfold s1, saved. simpl. destruct (setItem_error _); reflexivity. }
  assert (Hws : resolution_warnings p s1 = resolution_warnings p s).
  { unfold resolution_warnings. rewrite Hh. reflexivity. }
  rewrite Hres, Hws.
  apply applyTheme_exact. rewrite host_warned, Hh. exact Hw.
Qed.

Lemma resolution_frame p s s' :
  host s' = host s → prefers_dark s' = prefers_dark s →
  resolution p s' = resolution p s ∧ resolution_warnings p s' = resolution_warnings p s.
Proof.
  intros Hh Hd. unfold resolution, resolution_warnings, OSColorScheme.
  rewrite Hh, Hd. split; reflexivity.
Qed.

Lemma prefers_dark_warned ws s : prefers_dark (warned ws s) = prefers_dark s.
Proof. destruct ws; reflexivity. Qed.

Lemma initializeEffect_exact d key s :
  has_window (host s) = true →
  initializeEffect d key s = (Normal tt, initialize_outcome d key s).
Proof.
  intros Hw. unfold initializeEffect, initialize_outcome, try_catch, bind at 1 2.
  rewrite getStoredTheme_exact by exact Hw.
  set (p := or_default d (persisted key s)).
  set (s1 := warned (read_warnings s) s).
  assert (Hh : host s1 = host s) by apply host_warned.
  assert (Hd : prefers_dark s1 = prefers_dark s) by apply prefers_dark_warned.
  rewrite resolveTheme_exact by (rewrite Hh; exact Hw).
  destruct (resolution_frame p s s1 Hh Hd) as [-> ->].
  unfold bind, setThemeState, setResolvedTheme, modify.
  rewrite applyTheme_exact; [reflexivity|].
  simpl. rewrite host_warned, Hh. exact Hw.
Qed.

Lemma initialize_exact d key s :
  has_window (host s) = true →
  initialize d key s =
    (Normal (or_default d (persisted key s), resolution (or_default d (persisted key s)) s),
     initialize_outcome d key s).
Proof.
  intros Hw. unfold initialize, bind at 1.
  rewrite initializeEffect_exact by exact Hw. reflexivity.
Qed.

(** Without a window nothing is read and nothing is applied. *)
Lemma initialize_no_window d key s :
  has_window (host s) = false →
  initialize d key s =
    (Normal (d, match d with pref_dark => dark | _ => light end),
     with_resolvedTheme (match d with pref_dark => dark | _ => light end) (with_theme d s)).
Proof.
  intros Hw. unfold initialize, initializeEffect, getStoredTheme, resolveTheme,
    getSystemTheme, applyTheme, contextValue, or_default.
  eff_simpl. rewrite Hw. simpl.
  destruct d; simpl; rewrite ?Hw; simpl; rewrite ?Hw; reflexivity.
Qed.

Lemma valid_theme_string q : valid_theme (Some (preference_string q)) = Some q.
Proof. destruct q; reflexivity. Qed.

Lemma valid_theme_foreign v :
  (∀ q, v ≠ preference_string q) → valid_theme (Some v) = None.
Proof.
  intros Hv. unfold valid_theme.
  repeat (case_decide; [try reflexivity; subst|]); try reflexivity.
  - exfalso. exact (Hv pref_light eq_refl).
  - exfalso. exact (Hv pref_dark eq_refl).
  - exfalso. exact (Hv system eq_refl).
Qed.

Lemma marker_is_applied r s : marker_is r (applied r s).
Proof.
  unfold marker_is, marker_present, applied, swapped. simpl. split.
  - apply elem_of_app. right. apply list_elem_of_singleton. reflexivity.
  - intros [Hin|Hin%list_elem_of_singleton]%elem_of_app.
    + exact (marker_filtered _ _ Hin).
    + destruct r; discriminate.
Qed.

(** C2. With a window, [initialize] returns normally.  The preference it
    adopts is the stored one when the read succeeds and the stored string
    is one of the three names, and [defaultTheme] when the read throws, the
    key is absent or the string is none of the three.  The adopted
    preference is resolved (against the OS when it is [system]), the
    provider shows the pair, and the render target carries exactly the
    marker of the resolved theme.  With nothing stored and a default of
    [system] the pair is [(system, v)] for the OS value [v]; with a stored
    'light' or 'dark' it is that value twice, whatever the OS says. *)
Theorem initialize_adopts_resolves_applies (d : ThemePreference) (key : string) (s : State) :
  has_window (host s) = true →
  ∃ p r s',
    initialize d key s = (Normal (p, r), s') ∧
    (∀ q, getItem_error (host s) = None →
          items s !! key = Some (preference_string q) → p = q) ∧
    (getItem_error (host s) ≠ None ∨ items s !! key = None ∨
       (∀ q, items s !! key ≠ Some (preference_string q)) → p = d) ∧
    resolves_to p s r ∧
    theme s' = p ∧ resolvedTheme s' = r ∧ marker_is r s' ∧
    (d = system → getItem_error (host s) = None → items s !! key = None →
       matchMedia_error (host s) = None → p = system ∧ r = OSColorScheme s) ∧
    (∀ q : ResolvedTheme, getItem_error (host s) = None →
       items s !! key = Some (resolved_string q) → p = as_preference q ∧ r = q).
Proof.
  intros Hw.
  exists (or_default d (persisted key s)),
         (resolution (or_default d (persisted key s)) s),
         (initialize_outcome d key s).
  split; [apply initialize_exact; exact Hw|].
  assert (Hstored : ∀ q, getItem_error (host s) = None →
            items s !! key = Some (preference_string q) →
            or_default d (persisted key s) = q).
  { intros q Hg Hi. unfold persisted. rewrite Hg, Hi, valid_theme_string. reflexivity. }
  assert (Hdefault : getItem_error (host s) ≠ None ∨ items s !! key = None ∨
            (∀ q, items s !! key ≠ Some (preference_string q)) →
            or_default d (persisted key s) = d).
  { intros Hcase. unfold persisted.
    destruct (getItem_error (host s)) eqn:Hg; [reflexivity|].
    destruct Hcase as [Hc|[Hc|Hc]]; [congruence| |].
    - rewrite Hc. reflexivity.
    - destruct (items s !! key) as [v|] eqn:Hi; [|reflexivity].
      rewrite valid_theme_foreign; [reflexivity|]. intros q ->. exact (Hc q eq_refl). }
  repeat split.
  - exact Hstored.
  - exact Hdefault.
  - apply resolution_resolves.
  - apply resolution_resolves.
  - apply resolution_resolves.
  - apply marker_is_applied.
  - apply marker_is_applied.
  - rewrite Hdefault by auto. assumption.
  - rewrite Hdefault by auto. subst d. unfold resolution.
    destruct (matchMedia_error (host s)); congruence.
  - destruct q; apply Hstored; assumption.
  - rewrite (Hstored (as_preference q)) by (destruct q; assumption).
    destruct q; reflexivity.
Qed.

(** *** What [setTheme] and [initialize] leave in each part of the state *)

Lemma warnings_warned ws s : warnings (warned ws s) = warnings s ++ ws.
Proof. destruct ws; simpl; [rewrite app_nil_r|]; reflexivity. Qed.

Lemma setTheme_outcome_theme key p s : theme (setTheme_outcome key p s) = p.
Proof.
  unfold setTheme_outcome, saved. simpl.
  destruct (resolution_warnings p _), (setItem_error (host _)); reflexivity.
Qed.

Lemma setTheme_outcome_resolvedTheme key p s :
  resolvedTheme (setTheme_outcome key p s) = resolution p s.
Proof. reflexivity. Qed.

Lemma setTheme_outcome_items key p s :
  items (setTheme_outcome key p s) =
    match setItem_error (host s) with
    | None => <[key := preference_string p]> (items s)
    | Some _ => items s
    end.
Proof.
  unfold setTheme_outcome, saved. simpl.
  destruct (resolution_warnings p _), (setItem_error (host _)); reflexivity.
Qed.

Lemma setTheme_outcome_warnings key p s :
  warnings (setTheme_outcome key p s) =
    warnings s ++
    match setItem_error (host s) with None => [] | Some e => [save_warning e] end ++
    resolution_warnings p s.
Proof.
  unfold setTheme_outcome. simpl. rewrite warnings_warned. unfold saved. simpl.
  destruct (setItem_error (host s)); simpl.
  - rewrite <- app_assoc. reflexivity.
  - reflexivity.
Qed.

Lemma initialize_outcome_warnings d key s :
  warnings (initialize_outcome d key s) =
    warnings s ++ read_warnings s ++ resolution_warnings (or_default d (persisted key s)) s.
Proof.
  unfold initialize_outcome. simpl. rewrite !warnings_warned, app_assoc. reflexivity.
Qed.


(** C4. With a window and a storage that works, after [setTheme p] any
    page that starts from the storage [setTheme] left (a reload: whatever
    the default preference, the OS signal and the rest of the state are)
    and runs [initialize] with the same key adopts [p]. *)
Theorem setTheme_initialize_roundtrip
    (key : string) (p : ThemePreference) (s : State)
    (d : ThemePreference) (reloaded : State) :
  has_window (host s) = true →
  setItem_error (host s) = None →
  items reloaded = items (setTheme key p s).2 →
  has_window (host reloaded) = true →
  getItem_error (host reloaded) = None →
  ∃ r s', initialize d key reloaded = (Normal (p, r), s') ∧ theme s' = p.
Proof.
  intros Hw Hset Hitems Hw' Hget.
  rewrite setTheme_exact in Hitems by exact Hw. cbn [snd] in Hitems.
  rewrite setTheme_outcome_items, Hset in Hitems.
  rewrite initialize_exact by exact Hw'.
  assert (Hp : or_default d (persisted key reloaded) = p).
  { unfold persisted. rewrite Hget, Hitems, lookup_insert_eq, valid_theme_string.
    reflexivity. }
  rewrite Hp. eexists _, _. split; [reflexivity|].
  unfold initialize_outcome. rewrite Hp. reflexivity.
Qed.

Lemma persisted_nothing key s :
  getItem_error (host s) = None → items s !! key = None → persisted key s = None.
Proof. intros Hg Hi. unfold persisted. rewrite Hg, Hi. reflexivity. Qed.

Lemma persisted_unreadable key s e :
  getItem_error (host s) = Some e → persisted key s = None.
Proof. intros Hg. unfold persisted. rewrite Hg. reflexivity. Qed.

(** C5. With a window whose storage throws on read and on write:
    [initialize] returns normally with the default preference and its
    resolution, which is the pair a page with a readable storage holding
    nothing under the key returns under the same OS signal, and it logs
    the read warning once; [setTheme p] returns normally with
    [theme = p] and the resolution of [p], leaves the storage as it was
    and logs the save warning once.  The only other warning either call
    can log is the one of a failing OS query. *)
Theorem storage_failure_resilience
    (d : ThemePreference) (key : string) (p : ThemePreference) (s : State)
    (e_read e_write : js_error) :
  has_window (host s) = true →
  getItem_error (host s) = Some e_read →
  setItem_error (host s) = Some e_write →
  (∃ r s',
     initialize d key s = (Normal (d, r), s') ∧
     resolves_to d s r ∧ theme s' = d ∧ resolvedTheme s' = r ∧
     warnings s' = warnings s ++ read_warning e_read :: resolution_warnings d s ∧
     (∀ s0, has_window (host s0) = true → getItem_error (host s0) = None →
            items s0 !! key = None →
            matchMedia_error (host s0) = matchMedia_error (host s) →
            prefers_dark s0 = prefers_dark s →
            (initialize d key s0).1 = Normal (d, r))) ∧
  (∃ s',
     setTheme key p s = (Normal tt, s') ∧
     theme s' = p ∧ resolves_to p s (resolvedTheme s') ∧
     items s' = items s ∧
     warnings s' = warnings s ++ save_warning e_write :: resolution_warnings p s).
Proof.
  intros Hw Hget Hset. split.
  - assert (Hp : or_default d (persisted key s) = d).
    { rewrite (persisted_unreadable key s e_read Hget). reflexivity. }
    exists (resolution d s), (initialize_outcome d key s).
    rewrite initialize_exact, initialize_outcome_warnings by exact Hw.
    unfold initialize_outcome, read_warnings. rewrite !Hp, Hget.
    split; [reflexivity|].
    split; [apply resolution_resolves|].
    do 3 (split; [reflexivity|]).
    intros s0 Hw0 Hget0 Hnone Hmm Hdark.
    rewrite initialize_exact by exact Hw0.
    rewrite (persisted_nothing key s0 Hget0 Hnone). simpl.
    unfold resolution, OSColorScheme. rewrite Hmm, Hdark. reflexivity.
  - exists (setTheme_outcome key p s).
    split; [apply setTheme_exact; exact Hw|].
    split; [apply setTheme_outcome_theme|].
    split; [apply resolution_resolves|].
    rewrite setTheme_outcome_items, setTheme_outcome_warnings, Hset.
    split; reflexivity.
Qed.

(** The resolution by itself recovers.  With a window whose OS query
    throws (or is absent, which throws when it is called):
    [getSystemTheme], and so [resolveTheme] of [system], returns 'light'
    normally and logs the warning 'System theme detection failed, falling
    back to light theme:' once; the call of [setTheme] with [system] and
    the first effect, when it adopts [system], return normally with
    [resolvedTheme = light], its marker applied and the warning in the
    log.  (What the render that follows does is another matter, shown at
    the end of the file.) *)
Theorem os_signal_failure_falls_back_to_light (s : State) (e : js_error) :
  has_window (host s) = true →
  matchMedia_error (host s) = Some e →
  getSystemTheme s =
    (Normal light, with_warnings (warnings s ++ [detection_warning e]) s) ∧
  resolveTheme system s =
    (Normal light, with_warnings (warnings s ++ [detection_warning e]) s) ∧
  (∀ key, ∃ s',
     setTheme key system s = (Normal tt, s') ∧
     theme s' = system ∧ resolvedTheme s' = light ∧ marker_is light s' ∧
     detection_warning e ∈ warnings s') ∧
  (∀ d key, ∃ p r s',
     initialize d key s = (Normal (p, r), s') ∧
     (p = system →
        r = light ∧ resolvedTheme s' = light ∧ marker_is light s' ∧
        detection_warning e ∈ warnings s')).
Proof.
  intros Hw Hmm.
  assert (Hres : resolution system s = light).
  { unfold resolution. rewrite Hmm. reflexivity. }
  assert (Hws : resolution_warnings system s = [detection_warning e]).
  { unfold resolution_warnings. rewrite Hmm. reflexivity. }
  split; [apply getSystemTheme_unsupported; assumption|].
  split; [apply (getSystemTheme_unsupported s Hw e Hmm)|].
  split.
  - intros key. exists (setTheme_outcome key system s).
    split; [apply setTheme_exact; exact Hw|].
    split; [apply setTheme_outcome_theme|].
    rewrite setTheme_outcome_resolvedTheme, setTheme_outcome_warnings, Hres, Hws.
    split; [reflexivity|]. split.
    + unfold setTheme_outcome. rewrite Hres. apply marker_is_applied.
    + rewrite app_assoc. apply elem_of_app. right.
      apply list_elem_of_singleton. reflexivity.
  - intros d key.
    exists (or_default d (persisted key s)),
           (resolution (or_default d (persisted key s)) s),
           (initialize_outcome d key s).
    split; [apply initialize_exact; exact Hw|].
    intros Hp. rewrite initialize_outcome_warnings.
    unfold initialize_outcome. rewrite !Hp, Hres, Hws.
    split; [reflexivity|]. split; [reflexivity|]. split.
    + apply marker_is_applied.
    + rewrite app_assoc. apply elem_of_app. right.
      apply list_elem_of_singleton. reflexivity.
Qed.

(** *** The subscribing effect *)

Lemma systemChangeEffect_literal t s :
  t ≠ system → systemChangeEffect t s = (Normal None, s).
Proof.
  intros Ht. unfold systemChangeEffect. eff_simpl.
  rewrite bool_decide_eq_false_2 by exact Ht.
  rewrite orb_true_r. reflexivity.
Qed.

Lemma systemChangeEffect_no_window t s :
  has_window (host s) = false → systemChangeEffect t s = (Normal None, s).
Proof.
  intros Hw. unfold systemChangeEffect. eff_simpl. rewrite Hw. reflexivity.
Qed.

Lemma systemChangeEffect_system s :
  has_window (host s) = true → systemChangeEffect system s = listening s.
Proof.
  intros Hw. unfold systemChangeEffect, listening, new_closure, call_capability.
  eff_simpl. rewrite Hw. simpl.
  destruct (matchMedia_error (host s)); [reflexivity|]. simpl.
  destruct (addEventListener_cap (host s)); simpl; try reflexivity.
  destruct (addListener_cap (host s)); reflexivity.
Qed.

Lemma same_theme_refl s : same_theme s s.
Proof. repeat split. Qed.

Lemma same_theme_trans s1 s2 s3 : same_theme s1 s2 → same_theme s2 s3 → same_theme s1 s3.
Proof. unfold same_theme. intros ? ?. intuition congruence. Qed.

Lemma same_theme_register api f s : same_theme s (register api f s).
Proof. unfold register. case_decide; repeat split. Qed.

Lemma listening_frame s c s' : listening s = (c, s') → same_theme s s'.
Proof.
  unfold listening. intros H.
  repeat case_match; simplify_eq; try (repeat split; fail);
    match goal with |- same_theme _ (register ?a ?f ?x) =>
      apply (same_theme_trans _ x); [repeat split|apply same_theme_register] end.
Qed.

Lemma systemChangeEffect_frame t s c s' :
  systemChangeEffect t s = (c, s') → same_theme s s'.
Proof.
  destruct (has_window (host s)) eqn:Hw.
  - destruct (decide (t = system)) as [->|Ht].
    + rewrite systemChangeEffect_system by exact Hw. apply listening_frame.
    + rewrite systemChangeEffect_literal by exact Ht. intros [= <- <-]. apply same_theme_refl.
  - rewrite systemChangeEffect_no_window by exact Hw. intros [= <- <-]. apply same_theme_refl.
Qed.

Lemma runCleanup_frame c s r s' : runCleanup c s = (r, s') → same_theme s s'.
Proof.
  unfold runCleanup, call_capability. eff_simpl. intros H.
  repeat case_match; simplify_eq; repeat split.
Qed.

Lemma bind_inv {A B} (m : Eff A) (k : A → Eff B) s c s' :
  bind m k s = (c, s') →
  (∃ a s1, m s = (Normal a, s1) ∧ k a s1 = (c, s')) ∨
  (∃ e, m s = (Throw e, s') ∧ c = Throw e).
Proof.
  unfold bind. destruct (m s) as [[a|e] s1].
  - intros H. left. eauto.
  - intros [= <- <-]. right. eauto.
Qed.

Lemma commitSystemChangeEffect_frame s c s' :
  commitSystemChangeEffect s = (c, s') → same_theme s s'.
Proof.
  unfold commitSystemChangeEffect. unfold bind at 1 2, gets.
  case_bool_decide; [intros [= <- <-]; apply same_theme_refl|].
  unfold bind at 1, gets.
  intros [(a & s1 & H1 & H2)|(e & H1 & _)]%bind_inv.
  - assert (F1 : same_theme s s1).
    { destruct (cleanup s); [exact (runCleanup_frame _ _ _ _ H1)|].
      injection H1 as <- <-. apply same_theme_refl. }
    apply (same_theme_trans _ _ _ F1). clear H1.
    unfold bind at 1, modify in H2.
    apply bind_inv in H2 as [(c' & s2 & H2 & H3)|(e & H2 & _)].
    + apply systemChangeEffect_frame in H2. injection H3 as <- <-.
      apply (same_theme_trans _ _ _ H2). repeat split.
    + apply systemChangeEffect_frame in H2. exact H2.
  - destruct (cleanup s); [exact (runCleanup_frame _ _ _ _ H1)|discriminate].
Qed.

(** *** The listener *)

Lemma handleSystemThemeChange_exact b s :
  has_window (host s) = true →
  handleSystemThemeChange b s = (Normal tt, applied (if b then dark else light) s).
Proof.
  intros Hw. unfold handleSystemThemeChange, bind at 1, setResolvedTheme, modify.
  rewrite applyTheme_exact by exact Hw. reflexivity.
Qed.

Lemma themed_applied r s : themed (applied r s).
Proof. apply marker_is_applied. Qed.

Lemma themed_same_theme s s' : same_theme s s' → themed s → themed s'.
Proof.
  unfold themed, marker_is, marker_present.
  intros (_ & _ & _ & -> & _ & ->). trivial.
Qed.

Lemma invoke_themed f b s c s' :
  has_window (host s) = true → themed s → invoke f b s = (c, s') →
  c = Normal tt ∧ themed s' ∧ host s' = host s ∧ theme s' = theme s ∧
  items s' = items s ∧ listeners s' = listeners s.
Proof.
  intros Hw Ht. destruct f; simpl.
  - rewrite handleSystemThemeChange_exact by exact Hw. intros [= <- <-].
    split; [reflexivity|]. split; [apply themed_applied|]. repeat split.
  - intros [= <- <-]. split; [reflexivity|]. split; [exact Ht|]. repeat split.
Qed.

Lemma dispatch_themed registered b s c s' :
  has_window (host s) = true → themed s → dispatch registered b s = (c, s') →
  c = Normal tt ∧ themed s' ∧ host s' = host s ∧ theme s' = theme s ∧
  items s' = items s ∧ listeners s' = listeners s.
Proof.
  revert s. induction registered as [|l rest IH]; intros s Hw Ht; simpl.
  - intros [= <- <-]. split; [reflexivity|]. split; [exact Ht|]. repeat split.
  - intros [(a & s1 & H1 & H2)|(e & H1 & _)]%bind_inv.
    + destruct (invoke_themed _ _ _ _ _ Hw Ht H1) as (_ & Ht1 & Hh1 & Hth1 & Hi1 & Hl1).
      destruct (IH s1 ltac:(congruence) Ht1 H2) as (-> & ? & ? & ? & ? & ?).
      split; [reflexivity|]. split; [assumption|]. repeat split; congruence.
    + destruct (invoke_themed _ _ _ _ _ Hw Ht H1) as (? & _). discriminate.
Qed.

(** *** The marker along the life of an instance *)

Lemma host_setTheme_outcome key p s : host (setTheme_outcome key p s) = host s.
Proof.
  unfold setTheme_outcome. simpl. rewrite host_warned, host_saved. reflexivity.
Qed.

Lemma host_initialize_outcome d key s : host (initialize_outcome d key s) = host s.
Proof.
  unfold initialize_outcome. simpl. rewrite !host_warned. reflexivity.
Qed.

Lemma step_themed key ev s c s' :
  has_window (host s) = true → step key ev s = (c, s') →
  themed s → themed s' ∧ host s' = host s.
Proof.
  intros Hw H Ht. destruct ev as [p|b]; simpl in H.
  - unfold bind at 1 in H. rewrite setTheme_exact in H by exact Hw.
    apply commitSystemChangeEffect_frame in H.
    split.
    + apply (themed_same_theme _ _ H). apply themed_applied.
    + destruct H as (-> & _). apply host_setTheme_outcome.
  - apply bind_inv in H as [(a & s1 & H1 & H2)|(e & H1 & _)].
    + unfold systemThemeChanges, bind at 1 2, modify, gets in H1.
      apply dispatch_themed in H1 as (_ & Ht1 & Hh1 & _); [|exact Hw|exact Ht].
      apply commitSystemChangeEffect_frame in H2.
      split; [exact (themed_same_theme _ _ H2 Ht1)|].
      destruct H2 as (-> & _). exact Hh1.
    + unfold systemThemeChanges, bind at 1 2, modify, gets in H1.
      apply dispatch_themed in H1 as (? & _); [discriminate|exact Hw|exact Ht].
Qed.

Lemma run_themed key evs s c s' :
  has_window (host s) = true → run key evs s = (c, s') →
  themed s → themed s'.
Proof.
  revert s. induction evs as [|ev rest IH]; intros s Hw H Ht; simpl in H.
  - injection H as _ <-. exact Ht.
  - apply bind_inv in H as [(a & s1 & H1 & H2)|(e & H1 & _)].
    + destruct (step_themed _ _ _ _ _ Hw H1 Ht) as [Ht1 Hh1].
      apply (IH s1); [congruence|exact H2|exact Ht1].
    + exact (proj1 (step_themed _ _ _ _ _ Hw H1 Ht)).
Qed.

Lemma mount_themed d key s c s' :
  has_window (host s) = true → mount d key s = (c, s') →
  themed s' ∧ host s' = host s.
Proof.
  intros Hw H. unfold mount, bind at 1 2, modify in H.
  rewrite initializeEffect_exact in H by exact Hw.
  set (s1 := initialize_outcome _ _ _) in H.
  assert (Ht1 : themed s1) by apply themed_applied.
  assert (Hh1 : host s1 = host s) by (unfold s1; rewrite host_initialize_outcome; reflexivity).
  apply bind_inv in H as [(a & s2 & H1 & H2)|(e & H1 & _)].
  - apply systemChangeEffect_frame in H1.
    unfold bind at 1, modify in H2.
    apply commitSystemChangeEffect_frame in H2.
    split.
    + apply (themed_same_theme _ _ H2). apply (themed_same_theme s2); [repeat split|].
      exact (themed_same_theme _ _ H1 Ht1).
    + destruct H2 as (-> & _). simpl. destruct H1 as (-> & _). exact Hh1.
  - apply systemChangeEffect_frame in H1.
    split; [exact (themed_same_theme _ _ H1 Ht1)|].
    destruct H1 as (-> & _). exact Hh1.
Qed.

Lemma swapped_keeps_other_classes r classes c :
  c ≠ "light" → c ≠ "dark" → c ∈ swapped r classes ↔ c ∈ classes.
Proof.
  intros Hl Hd. unfold swapped.
  rewrite elem_of_app, list_elem_of_filter, list_elem_of_singleton.
  split.
  - intros [[_ Hin]| ->]; [exact Hin|]. destruct r; simpl in *; congruence.
  - intros Hin. left. split; [|exact Hin].
    rewrite !not_elem_of_cons. repeat split; [exact Hl|exact Hd|apply not_elem_of_nil].
Qed.

(** C7. With a window, an application of a theme is one step of the
    single-threaded program: [applyTheme r] removes both markers and adds
    the one of [r], so that whatever markers the render target carried
    before (none, one or both), after the step it carries the marker of
    [r] and not the other one, [resolvedTheme] is [r], and every other
    class is as it was.  This holds for the applications made by
    [initialize], by [setTheme] and by the listener of the OS signal;
    [setTheme] with the opposite of the current resolved theme leaves the
    new marker present and the old one absent; and after mounting, at
    every state between two events (and the one an effect that throws
    ends in) exactly the marker of [resolvedTheme] is present. *)
Theorem theme_marker_swapped_atomically (s : State) :
  has_window (host s) = true →
  (∀ r, ∃ s',
     applyTheme r s = (Normal tt, s') ∧ resolvedTheme s' = r ∧
     marker_present r s' ∧ ¬ marker_present (other r) s' ∧
     (∀ c, c ≠ "light" → c ≠ "dark" → c ∈ classList s' ↔ c ∈ classList s)) ∧
  (∀ d key, ∃ pr s', initialize d key s = (Normal pr, s') ∧ marker_is (pr.2) s') ∧
  (∀ key p, ∃ s', setTheme key p s = (Normal tt, s') ∧ themed s') ∧
  (∀ b, ∃ s', handleSystemThemeChange b s = (Normal tt, s') ∧
              resolvedTheme s' = (if b then dark else light) ∧ themed s') ∧
  (∀ key r, resolvedTheme s = r → marker_is r s →
     ∃ s', setTheme key (as_preference (other r)) s = (Normal tt, s') ∧
           resolvedTheme s' = other r ∧
           marker_present (other r) s' ∧ ¬ marker_present r s') ∧
  (∀ d key evs c s', bind (mount d key) (fun _ => run key evs) s = (c, s') → themed s').
Proof.
  intros Hw. repeat apply conj.
  - intros r. exists (applied r s).
    split; [apply applyTheme_exact; exact Hw|]. split; [reflexivity|].
    destruct (marker_is_applied r s) as [Hin Hout].
    split; [exact Hin|]. split; [exact Hout|].
    intros c. apply swapped_keeps_other_classes.
  - intros d key. eexists _, _. split; [apply initialize_exact; exact Hw|].
    apply marker_is_applied.
  - intros key p. eexists. split; [apply setTheme_exact; exact Hw|].
    apply themed_applied.
  - intros b. eexists. split; [apply handleSystemThemeChange_exact; exact Hw|].
    split; [reflexivity|apply themed_applied].
  - intros key r _ _. eexists. split; [apply setTheme_exact; exact Hw|].
    assert (Hres : resolution (as_preference (other r)) s = other r)
      by (destruct r; reflexivity).
    rewrite setTheme_outcome_resolvedTheme, Hres. split; [reflexivity|].
    unfold setTheme_outcome. rewrite Hres.
    destruct (marker_is_applied (other r)
      (warned (resolution_warnings (as_preference (other r)) s)
         (saved key (as_preference (other r)) (with_theme (as_preference (other r)) s))))
      as [Hin Hout].
    split; [exact Hin|]. destruct r; exact Hout.
  - intros d key evs c s' H.
    apply bind_inv in H as [(a & s1 & H1 & H2)|(e & H1 & _)].
    + destruct (mount_themed _ _ _ _ _ Hw H1) as [Ht1 Hh1].
      apply (run_themed key evs s1 c s'); [congruence|exact H2|exact Ht1].
    + exact (proj1 (mount_themed _ _ _ _ _ Hw H1)).
Qed.

(** *** The subscription along the life of an instance *)

Lemma same_subscription_subscribed s s' :
  same_subscription s s' → subscribed s → subscribed s'.
Proof.
  unfold subscribed, own_listeners, closures_bounded.
  intros (Hh & Hl & Hc & Hr & Hcl). rewrite Hh, Hl, Hc, Hr, Hcl. trivial.
Qed.

Lemma same_subscription_setTheme key p s :
  same_subscription s (setTheme_outcome key p s).
Proof.
  unfold same_subscription, setTheme_outcome, saved. simpl.
  destruct (resolution_warnings p _), (setItem_error (host _)); repeat split.
Qed.

Lemma invoke_same_subscription f b s c s' :
  invoke f b s = (c, s') → c = Normal tt ∧ same_subscription s s'.
Proof.
  destruct f; simpl.
  - unfold handleSystemThemeChange, applyTheme. eff_simpl.
    destruct (has_window (host s)); simpl.
    + case_decide; intros [= <- <-]; repeat split.
    + intros [= <- <-]; repeat split.
  - intros [= <- <-]; repeat split.
Qed.

Lemma same_subscription_trans s1 s2 s3 :
  same_subscription s1 s2 → same_subscription s2 s3 → same_subscription s1 s3.
Proof. unfold same_subscription. intuition congruence. Qed.

Lemma dispatch_same_subscription registered b s c s' :
  dispatch registered b s = (c, s') → c = Normal tt ∧ same_subscription s s'.
Proof.
  revert s. induction registered as [|l rest IH]; intros s; simpl.
  - intros [= <- <-]. repeat split.
  - intros [(a & s1 & H1 & H2)|(e & H1 & _)]%bind_inv.
    + apply invoke_same_subscription in H1 as [_ F1].
      apply IH in H2 as [-> F2]. split; [reflexivity|].
      exact (same_subscription_trans _ _ _ F1 F2).
    + apply invoke_same_subscription in H1 as [? _]. discriminate.
Qed.

Lemma fresh_closure s api :
  closures_bounded s → (api, HandleSystemThemeChange (closures s)) ∉ listeners s.
Proof. intros Hb Hin. apply Hb in Hin. lia. Qed.

Lemma own_listeners_none_bounded s : own_listeners s = [] → closures_bounded s.
Proof.
  intros Hown api n Hin. exfalso.
  assert (Hin' : (api, HandleSystemThemeChange n) ∈ own_listeners s).
  { apply list_elem_of_filter. split; [exact I|exact Hin]. }
  rewrite Hown in Hin'. exact (not_elem_of_nil _ Hin').
Qed.

Lemma register_fresh api s :
  closures_bounded s →
  let handler := HandleSystemThemeChange (closures s) in
  let s' := register api handler (with_closures (S (closures s)) s) in
  listeners s' = listeners s ++ [(api, handler)] ∧
  own_listeners s' = own_listeners s ++ [(api, handler)] ∧
  closures_bounded s' ∧ host s' = host s.
Proof.
  intros Hb handler s'. unfold s', register. simpl.
  destruct (decide _) as [Hin|_]; [exfalso; exact (fresh_closure s api Hb Hin)|].
  unfold own_listeners, closures_bounded. simpl.
  split; [reflexivity|]. split; [|split; [|reflexivity]].
  - rewrite filter_app. reflexivity.
  - intros api' n [Hin|Hin%list_elem_of_singleton]%elem_of_app.
    + apply Hb in Hin. lia.
    + injection Hin as _ ->. lia.
Qed.

Lemma systemChangeEffect_subscribes t s c s' :
  has_window (host s) = true → own_listeners s = [] →
  systemChangeEffect t s = (Normal c, s') →
  subscribed (with_subscription t c s').
Proof.
  intros Hw Hown H.
  pose proof (own_listeners_none_bounded s Hown) as Hb.
  destruct (decide (t = system)) as [->|Ht].
  - rewrite systemChangeEffect_system in H by exact Hw.
    unfold listening in H.
    destruct (matchMedia_error (host s)); [discriminate|].
    destruct (register_fresh ViaAddEventListener s Hb) as (_ & Ho1 & Hb1 & Hh1).
    destruct (register_fresh ViaAddListener s Hb) as (_ & Ho2 & Hb2 & Hh2).
    rewrite Hown in Ho1, Ho2. simpl in Ho1, Ho2.
    unfold subscribed, registrable.
    destruct (addEventListener_cap (host s)) eqn:Ha;
      [destruct (addListener_cap (host s)) eqn:Hl| |];
      injection H as <- <-; simpl;
      rewrite ?Hh1, ?Hh2, ?Ha, ?Hl;
      (split; [exact Hw|]); (split; [first [exact Ho1|exact Ho2|exact Hown]|]);
      (split; [first [exact Hb1|exact Hb2|intros api n Hin; apply Hb in Hin; simpl; lia]|]);
      (split; [intros c0 Hc0; simplify_eq; simpl; auto|]);
      intros _ Hreg; destruct Hreg as [?|[? ?]]; congruence.
  - rewrite systemChangeEffect_literal in H by exact Ht.
    injection H as <- <-. unfold subscribed. simpl.
    split; [exact Hw|]. split; [exact Hown|]. split; [exact Hb|].
    split; [discriminate|]. intros Hsys. contradiction.
Qed.

Lemma filter_comm {A} (P Q : A → Prop) `{∀ x, Decision (P x)} `{∀ x, Decision (Q x)}
    (l : list A) :
  filter P (filter Q l) = filter Q (filter P l).
Proof.
  induction l as [|x l IH]; [reflexivity|].
  rewrite !filter_cons.
  destruct (decide (Q x)), (decide (P x)); rewrite ?filter_cons;
    repeat case_decide; try contradiction; congruence.
Qed.

Lemma runCleanup_unsubscribes s c :
  subscribed s → cleanup s = Some c →
  runCleanup c s = (Normal tt, unregister (c.1) (c.2) s) ∧
  own_listeners (unregister (c.1) (c.2) s) = [] ∧
  (∀ l, is_own (l.2) = false → l ∈ listeners (unregister (c.1) (c.2) s) ↔ l ∈ listeners s).
Proof.
  intros (Hw & Hown & Hb & Hcl & _) Hc. rewrite Hc in Hown.
  destruct (Hcl c Hc) as [_ Hcap].
  split; [|split].
  - unfold runCleanup, call_capability, capability_in in *. eff_simpl.
    destruct c as [[|] f]; simpl in *; rewrite Hcap; reflexivity.
  - unfold own_listeners, unregister in *. simpl.
    rewrite filter_comm, Hown.
    rewrite filter_cons_False; [reflexivity|].
    intros Hne. apply Hne. destruct c; reflexivity.
  - intros l Hl. unfold unregister. simpl. rewrite list_elem_of_filter.
    split; [intros [_ ?]; assumption|]. intros Hin. split; [|exact Hin].
    intros ->.
    assert (Hin' : c ∈ [c]) by (apply list_elem_of_singleton; reflexivity).
    rewrite <- Hown in Hin'. apply list_elem_of_filter in Hin' as [Hown' _].
    destruct c as [api f]. simpl in *. rewrite Hl in Hown'. exact Hown'.
Qed.

Lemma cleanup_before_rerun s :
  subscribed s →
  ∃ s1, match cleanup s with Some c => runCleanup c | None => ret tt end s = (Normal tt, s1) ∧
        own_listeners s1 = [] ∧ has_window (host s1) = true ∧ theme s1 = theme s.
Proof.
  intros Hs. destruct (cleanup s) as [c|] eqn:Hc.
  - destruct (runCleanup_unsubscribes s c Hs Hc) as (Hr & Ho & _).
    exists (unregister (c.1) (c.2) s).
    split; [exact Hr|]. split; [exact Ho|]. split; [apply Hs|reflexivity].
  - exists s. destruct Hs as (Hw & Hown & _). rewrite Hc in Hown.
    split; [reflexivity|]. split; [exact Hown|]. split; [exact Hw|reflexivity].
Qed.

Lemma commit_invariant s s' :
  subscribed s → commitSystemChangeEffect s = (Normal tt, s') →
  subscription_invariant s'.
Proof.
  intros Hs H. unfold commitSystemChangeEffect in H.
  unfold bind at 1 2, gets in H.
  case_bool_decide as Hdep.
  - injection H as <-. split; assumption.
  - destruct (cleanup_before_rerun s Hs) as (s1 & Hrun & Hown1 & Hw1 & Ht1).
    unfold bind at 1 2, gets in H. rewrite Hrun in H.
    unfold bind at 1, modify in H.
    apply bind_inv in H as [(c' & s2 & H2 & H3)|(e & _ & ?)]; [|discriminate].
    injection H3 as <-.
    apply systemChangeEffect_subscribes in H2 as Hsub; [|exact Hw1|exact Hown1].
    apply systemChangeEffect_frame in H2 as (_ & _ & _ & _ & Hth & _).
    split; [|exact Hsub]. simpl in *. congruence.
Qed.

Lemma dispatch_resolvedTheme registered b s c s' :
  has_window (host s) = true → dispatch registered b s = (c, s') →
  resolvedTheme s' =
    match filter (fun l => is_own (l.2)) registered with
    | [] => resolvedTheme s
    | _ => if b then dark else light
    end.
Proof.
  revert s. induction registered as [|[api f] rest IH]; intros s Hw; simpl.
  - intros [= _ <-]. reflexivity.
  - rewrite filter_cons. simpl.
    intros [(a & s1 & H1 & H2)|(e & H1 & _)]%bind_inv.
    + destruct f as [n|n]; simpl in *.
      * rewrite handleSystemThemeChange_exact in H1 by exact Hw.
        injection H1 as _ <-. apply IH in H2; [|exact Hw].
        rewrite H2. destruct (filter _ rest); reflexivity.
      * injection H1 as _ <-. apply IH in H2; [|exact Hw]. exact H2.
    + apply invoke_same_subscription in H1 as [? _]. discriminate.
Qed.

Lemma systemThemeChanges_total b s :
  ∃ s', systemThemeChanges b s = (Normal tt, s') ∧
        same_subscription s s' ∧ prefers_dark s' = b.
Proof.
  unfold systemThemeChanges, bind at 1 2, modify, gets.
  destruct (dispatch (listeners (with_prefers_dark b s)) b (with_prefers_dark b s))
    as [c s'] eqn:H.
  pose proof H as H'.
  apply dispatch_same_subscription in H as [-> F].
  exists s'. split; [reflexivity|]. split.
  - apply (same_subscription_trans _ (with_prefers_dark b s)); [repeat split|exact F].
  - clear F. revert H'. generalize (listeners (with_prefers_dark b s)).
    assert (Hd : prefers_dark (with_prefers_dark b s) = b) by reflexivity.
    revert Hd. generalize (with_prefers_dark b s). intros s0 Hd l. revert s0 Hd.
    induction l as [|[api f] rest IH]; intros s0 Hd; simpl.
    + intros [= <-]. exact Hd.
    + intros [(a & s1 & H1 & H2)|(e & _ & ?)]%bind_inv; [|discriminate].
      apply (IH s1); [|exact H2]. rewrite <- Hd.
      destruct f; simpl in H1.
      * unfold handleSystemThemeChange, applyTheme in H1. eff_simpl.
        destruct (has_window (host s0)); simpl in H1;
          [case_decide|]; injection H1 as _ <-; reflexivity.
      * injection H1 as _ <-. reflexivity.
Qed.

Lemma step_invariant key ev s s' :
  subscription_invariant s → step key ev s = (Normal tt, s') →
  subscription_invariant s'.
Proof.
  intros [_ Hs] H. pose proof Hs as (Hw & _).
  destruct ev as [p|b]; simpl in H.
  - unfold bind at 1 in H. rewrite setTheme_exact in H by exact Hw.
    apply commit_invariant in H; [exact H|].
    exact (same_subscription_subscribed _ _ (same_subscription_setTheme key p s) Hs).
  - destruct (systemThemeChanges_total b s) as (s1 & H1 & F1 & _).
    unfold bind at 1 in H. rewrite H1 in H.
    apply commit_invariant in H; [exact H|].
    exact (same_subscription_subscribed _ _ F1 Hs).
Qed.

Lemma run_invariant key evs s s' :
  subscription_invariant s → run key evs s = (Normal tt, s') →
  subscription_invariant s'.
Proof.
  revert s. induction evs as [|ev rest IH]; intros s Hs H; simpl in H.
  - injection H as <-. exact Hs.
  - apply bind_inv in H as [(a & s1 & H1 & H2)|(e & _ & ?)]; [|discriminate].
    destruct a. apply (IH s1); [|exact H2].
    exact (step_invariant _ _ _ _ Hs H1).
Qed.

Lemma mount_invariant d key s s' :
  has_window (host s) = true → own_listeners s = [] →
  mount d key s = (Normal tt, s') → subscription_invariant s'.
Proof.
  intros Hw Hown H. unfold mount, bind at 1 2, modify in H.
  rewrite initializeEffect_exact in H by exact Hw.
  set (s1 := initialize_outcome _ _ _) in H.
  assert (Hh1 : host s1 = host s) by (unfold s1; rewrite host_initialize_outcome; reflexivity).
  assert (Hown1 : own_listeners s1 = []).
  { rewrite <- Hown. unfold s1, own_listeners, initialize_outcome. simpl.
    f_equal. set (w1 := warned (read_warnings _) _).
    transitivity (listeners w1); [destruct (resolution_warnings _ _); reflexivity|].
    unfold w1. destruct (read_warnings _); reflexivity. }
  apply bind_inv in H as [(c & s2 & H1 & H2)|(e & _ & ?)]; [|discriminate].
  apply systemChangeEffect_subscribes in H1; [|congruence|exact Hown1].
  unfold bind at 1, modify in H2.
  exact (commit_invariant _ _ H1 H2).
Qed.

Lemma dispatch_foreign registered b s :
  filter (fun l => is_own (l.2)) registered = [] →
  dispatch registered b s = (Normal tt, s).
Proof.
  induction registered as [|[api f] rest IH]; [reflexivity|].
  rewrite filter_cons. simpl. destruct f as [n|n]; simpl; [discriminate|].
  intros Hrest. unfold bind, ret. simpl. apply IH. exact Hrest.
Qed.

Lemma systemThemeChanges_unsubscribed b s :
  own_listeners s = [] → systemThemeChanges b s = (Normal tt, with_prefers_dark b s).
Proof.
  intros Hown. unfold systemThemeChanges, bind at 1 2, modify, gets.
  apply dispatch_foreign. exact Hown.
Qed.

Lemma systemThemeChanges_listening b s :
  has_window (host s) = true → themed s → own_listeners s ≠ [] →
  ∃ s', systemThemeChanges b s = (Normal tt, s') ∧
        resolvedTheme s' = (if b then dark else light) ∧ themed s' ∧
        theme s' = theme s ∧ items s' = items s ∧ same_subscription s s' ∧
        prefers_dark s' = b.
Proof.
  intros Hw Ht Hown.
  destruct (systemThemeChanges_total b s) as (s' & H & F & Hd).
  exists s'. split; [exact H|].
  unfold systemThemeChanges, bind at 1 2, modify, gets in H.
  pose proof H as H'.
  apply dispatch_resolvedTheme in H; [|exact Hw].
  apply dispatch_themed in H' as (_ & Ht' & _ & Hth & Hi & _); [|exact Hw|exact Ht].
  split.
  - rewrite H. unfold own_listeners in Hown. simpl.
    destruct (filter _ (listeners s)); [contradiction|reflexivity].
  - split; [exact Ht'|]. simpl in Hth, Hi. auto.
Qed.

(** C8. For an instance mounted on a page with a window (no closure of
    its listener registered before), at every state [s] between two
    events: a listener of the instance is registered on the OS signal
    only if [theme] is [system]; and if [theme] is [system] and the media
    query can register a listener, every change event of the OS signal (to
    [prefersDark]) makes [resolvedTheme] the new OS value with exactly
    its marker on the render target, leaves [theme] at [system] and the
    storage as it was, and leaves the instance in a state of the same
    kind.  The listener itself, in any state with a window, sets
    [resolvedTheme] from the event, applies it, and touches neither
    [theme] nor the storage. *)
Theorem system_change_updates_resolved_only
    (d : ThemePreference) (key : string) (evs : list event) (s0 s : State) :
  has_window (host s0) = true →
  own_listeners s0 = [] →
  bind (mount d key) (fun _ => run key evs) s0 = (Normal tt, s) →
  (own_listeners s ≠ [] → theme s = system) ∧
  (theme s = system → registrable (host s) →
     ∀ prefersDark, ∃ s',
       step key (SystemThemeChanges prefersDark) s = (Normal tt, s') ∧
       OSColorScheme s' = (if prefersDark then dark else light) ∧
       resolvedTheme s' = OSColorScheme s' ∧ themed s' ∧
       theme s' = system ∧ items s' = items s ∧
       own_listeners s' = own_listeners s) ∧
  (∀ e_matches, ∃ s',
     handleSystemThemeChange e_matches s = (Normal tt, s') ∧
     resolvedTheme s' = (if e_matches then dark else light) ∧ themed s' ∧
     theme s' = theme s ∧ items s' = items s).
Proof.
  intros Hw0 Hown0 H.
  apply bind_inv in H as [(a & s1 & H1 & H2)|(e & _ & ?)]; [|discriminate].
  destruct a.
  pose proof (mount_invariant _ _ _ _ Hw0 Hown0 H1) as Hinv1.
  pose proof (run_invariant _ _ _ _ Hinv1 H2) as Hinv.
  destruct (mount_themed _ _ _ _ _ Hw0 H1) as [Ht1 Hh1].
  assert (Hw1 : has_window (host s1) = true) by congruence.
  pose proof (run_themed _ _ _ _ _ Hw1 H2 Ht1) as Ht.
  destruct Hinv as (Hdep & Hw & Hown & Hb & Hcl & Hreg).
  split; [|split].
  - intros Hne. rewrite Hdep.
    destruct (cleanup s) as [c|]; [exact (proj1 (Hcl c eq_refl))|contradiction].
  - intros Hsys Hr b.
    assert (Hne : own_listeners s ≠ []).
    { rewrite Hown. rewrite Hsys in Hdep. symmetry in Hdep.
      specialize (Hreg Hdep Hr). destruct (cleanup s); [discriminate|contradiction]. }
    destruct (systemThemeChanges_listening b s Hw Ht Hne)
      as (s' & Hs' & Hres & Ht' & Hth & Hi & F & Hd).
    exists s'. simpl. unfold bind at 1. rewrite Hs'.
    assert (Hnop : commitSystemChangeEffect s' = (Normal tt, s')).
    { unfold commitSystemChangeEffect, bind at 1 2, gets.
      destruct F as (_ & _ & _ & Hrt & _).
      rewrite bool_decide_eq_true_2 by congruence. reflexivity. }
    rewrite Hnop. split; [reflexivity|].
    unfold OSColorScheme. rewrite Hd.
    split; [reflexivity|]. split; [exact Hres|]. split; [exact Ht'|].
    split; [congruence|]. split; [exact Hi|].
    unfold own_listeners. destruct F as (_ & -> & _). reflexivity.
  - intros b. exists (applied (if b then dark else light) s).
    split; [apply handleSystemThemeChange_exact; exact Hw|].
    split; [reflexivity|]. split; [apply themed_applied|]. split; reflexivity.
Qed.

(** *** Subscribing and unsubscribing *)

Lemma filter_all {A} (P : A → Prop) `{∀ x, Decision (P x)} (l : list A) :
  (∀ x, x ∈ l → P x) → filter P l = l.
Proof.
  induction l as [|x l IH]; intros Hall; [reflexivity|].
  rewrite filter_cons_True by (apply Hall; left).
  rewrite IH; [reflexivity|]. intros y Hy. apply Hall. right. exact Hy.
Qed.

Lemma systemThemeChanges_resolvedTheme b s :
  has_window (host s) = true →
  ∃ s', systemThemeChanges b s = (Normal tt, s') ∧
        resolvedTheme s' =
          match own_listeners s with
          | [] => resolvedTheme s
          | _ => if b then dark else light
          end.
Proof.
  intros Hw. destruct (systemThemeChanges_total b s) as (s' & H & _).
  exists s'. split; [exact H|].
  unfold systemThemeChanges, bind at 1 2, modify, gets in H.
  apply dispatch_resolvedTheme in H; [exact H|exact Hw].
Qed.

Lemma subscribes_through_available api s :
  has_window (host s) = true → own_listeners s = [] →
  capability_in (host s) api = Available →
  listening s =
    (Normal (Some (api, HandleSystemThemeChange (closures s))),
     register api (HandleSystemThemeChange (closures s)) (with_closures (S (closures s)) s)) →
  systemChangeEffect system s = listening s →
  subscribes_through api s.
Proof.
  intros Hw Hown Hcap Hlisten Heff.
  pose proof (own_listeners_none_bounded s Hown) as Hb.
  destruct (register_fresh api s Hb) as (Hl1 & Ho1 & Hb1 & Hh1).
  rewrite Hown in Ho1. simpl in Ho1.
  set (handler := HandleSystemThemeChange (closures s)) in *.
  set (s1 := register api handler (with_closures (S (closures s)) s)) in *.
  exists s1. split; [rewrite Heff; exact Hlisten|]. split; [exact Hl1|]. split.
  - intros b. destruct (systemThemeChanges_resolvedTheme b s1) as (s' & H & Hres);
      [congruence|].
    exists s'. split; [exact H|]. rewrite Hres, Ho1. reflexivity.
  - exists (unregister api handler s1).
    assert (Hl2 : listeners (unregister api handler s1) = listeners s).
    { unfold unregister. simpl. rewrite Hl1, filter_app.
      rewrite filter_cons_False by (intros Hne; apply Hne; reflexivity).
      rewrite filter_nil, app_nil_r. apply filter_all.
      intros l Hin ->. exact (fresh_closure s api Hb Hin). }
    split; [|split; [exact Hl2|]].
    + unfold runCleanup, call_capability. eff_simpl.
      rewrite Hh1, Hcap. reflexivity.
    + intros b. eexists. split.
      * apply systemThemeChanges_unsubscribed.
        unfold own_listeners. rewrite Hl2. exact Hown.
      * split; reflexivity.
Qed.

(** On a page with a window whose media query is returned, and on which
    no closure of the listener is registered yet, the subscribing effect
    run for [system]: registers through [addEventListener] when that
    exists (whatever [addListener] is), and through [addListener] when
    [addEventListener] is absent; in both cases the cleanup function it
    returns removes exactly the closure it registered (the listeners of
    the query are again what they were), after which a change of the OS
    signal leaves [resolvedTheme] and the render target alone; and when
    the query has neither, it returns no cleanup function, registers
    nothing, logs nothing and does not throw, and the teardown of the
    instance does nothing. *)
Lemma subscription_with_media_query (s : State) :
  has_window (host s) = true →
  matchMedia_error (host s) = None →
  own_listeners s = [] →
  (addEventListener_cap (host s) = Available →
     subscribes_through ViaAddEventListener s) ∧
  (addEventListener_cap (host s) = Missing → addListener_cap (host s) = Available →
     subscribes_through ViaAddListener s) ∧
  (addEventListener_cap (host s) = Missing → addListener_cap (host s) = Missing →
     ∃ s', systemChangeEffect system s = (Normal None, s') ∧
           listeners s' = listeners s ∧ warnings s' = warnings s ∧
           same_theme s s' ∧
           unmount (with_subscription system None s') =
             (Normal tt, with_subscription system None s')).
Proof.
  intros Hw Hmm Hown.
  pose proof (systemChangeEffect_system s Hw) as Heff.
  split; [|split].
  - intros Ha. apply subscribes_through_available; try assumption.
    unfold listening. rewrite Hmm, Ha. reflexivity.
  - intros Ha Hl. apply subscribes_through_available; try assumption.
    unfold listening. rewrite Hmm, Ha, Hl. reflexivity.
  - intros Ha Hl. rewrite Heff. unfold listening. rewrite Hmm, Ha, Hl.
    eexists. split; [reflexivity|]. repeat split.
Qed.

(** C10. [useTheme] under no provider throws the error 'useTheme must be
    used within a ThemeProvider' (and changes nothing); under a provider
    it returns, without throwing, the context value of the nearest one,
    which for a provider in state [s] holds its [theme], its
    [resolvedTheme] and its [setTheme]. *)
Theorem useTheme_requires_provider (s : State) :
  useTheme [] s = (Throw (JsError "useTheme must be used within a ThemeProvider"), s) ∧
  (∀ context outer, useTheme (context :: outer) s = (Normal context, s)) ∧
  (∀ key outer, ∃ context,
     contextValue key s = (Normal context, s) ∧
     useTheme (context :: outer) s = (Normal context, s) ∧
     ctx_theme context = theme s ∧
     ctx_resolvedTheme context = resolvedTheme s ∧
     ctx_setTheme context = setTheme key).
Proof.
  split; [reflexivity|]. split; [reflexivity|].
  intros key outer. eexists. split; [reflexivity|]. repeat split.
Qed.

(** ** The scenarios of the specification, run *)

Example scenario_no_storage_os_dark :
  (initialize system "portfolio-theme" (loaded browser ∅ true)).1 = Normal (system, dark).
Proof. vm_compute. reflexivity. Qed.

Example scenario_stored_dark_os_light :
  (initialize system "portfolio-theme"
     (loaded browser {[ "portfolio-theme" := "dark" ]} false)).1 = Normal (pref_dark, dark).
Proof. vm_compute. reflexivity. Qed.

Example scenario_setTheme_dark :
  observed (bind (mount pref_light "portfolio-theme")
              (fun _ => run "portfolio-theme" [UserSetsTheme pref_dark])
              (loaded browser ∅ false)) =
  (Normal tt, pref_dark, dark, ["scroll-smooth"; "dark"], Some "dark", 0, []).
Proof. vm_compute. reflexivity. Qed.

Example scenario_os_changes_to_dark :
  observed (bind (mount system "portfolio-theme")
              (fun _ => run "portfolio-theme" [SystemThemeChanges true])
              (loaded browser ∅ false)) =
  (Normal tt, system, dark, ["scroll-smooth"; "dark"], None, 0,
   [(ViaAddEventListener, HandleSystemThemeChange 0)]).
Proof. vm_compute. reflexivity. Qed.

Example scenario_getItem_throws :
  let r := initialize pref_light "portfolio-theme" (loaded private_browser ∅ false) in
  r.1 = Normal (pref_light, light) ∧
  warnings (r.2) = [read_warning (JsError "localStorage unavailable")].
Proof. vm_compute. split; reflexivity. Qed.

Example scenario_stored_dark_default_system :
  observed (bind (mount system "portfolio-theme")
              (fun _ => run "portfolio-theme" [SystemThemeChanges true; SystemThemeChanges false])
              (loaded browser {[ "portfolio-theme" := "dark" ]} false)) =
  (Normal tt, pref_dark, dark, ["scroll-smooth"; "dark"], Some "dark", 0, []).
Proof. vm_compute. reflexivity. Qed.

Example scenario_leaving_system :
  observed (bind (mount system "portfolio-theme")
              (fun _ => run "portfolio-theme"
                 [UserSetsTheme pref_light; SystemThemeChanges true; UserSetsTheme system])
              (loaded legacy_browser ∅ false)) =
  (Normal tt, system, dark, ["scroll-smooth"; "dark"], Some "system", 0,
   [(ViaAddListener, HandleSystemThemeChange 1)]).
Proof. vm_compute. reflexivity. Qed.

(** C9. In a browser without [matchMedia], where neither
    [addEventListener] nor [addListener] of a media query is available,
    subscribing is not a no-op: the subscribing effect run for [system]
    asks for the media query before its [try] and throws, and so does
    mounting the provider with the default preference [system].  The
    resolution of the same page recovers from the same failure (it
    returns 'light'), and with a preference other than [system] the
    provider mounts. *)
Theorem subscribing_without_matchMedia_throws :
  capability_in old_browser ViaAddEventListener = Missing ∧
  capability_in old_browser ViaAddListener = Missing ∧
  systemChangeEffect system (loaded old_browser ∅ false) =
    (Throw (JsError "matchMedia not supported"), loaded old_browser ∅ false) ∧
  (mount system "portfolio-theme" (loaded old_browser ∅ false)).1 =
    Throw (JsError "matchMedia not supported") ∧
  (getSystemTheme (loaded old_browser ∅ false)).1 = Normal light ∧
  (mount pref_light "portfolio-theme" (loaded old_browser ∅ false)).1 = Normal tt.
Proof. vm_compute. repeat split; reflexivity. Qed.

(** ** The theorems at concrete pages *)

Lemma resolveTheme_pure_total_witness :
  ∃ r, resolveTheme system (loaded browser ∅ true) = (Normal r, loaded browser ∅ true) ∧
       (system ≠ system → as_preference r = system) ∧
       (system = system → r = dark) ∧
       (resolved_string r = "light" ∨ resolved_string r = "dark") ∧
       resolved_string r ≠ "system".
Proof.
  apply (resolveTheme_pure_total system dark (loaded browser ∅ true)); reflexivity.
Defined.

Lemma initialize_adopts_resolves_applies_witness :
  ∃ p r s',
    initialize system "portfolio-theme"
      (loaded browser {[ "portfolio-theme" := "dark" ]} false) = (Normal (p, r), s') ∧
    theme s' = p ∧ resolvedTheme s' = r ∧ marker_is r s'.
Proof.
  destruct (initialize_adopts_resolves_applies system "portfolio-theme"
              (loaded browser {[ "portfolio-theme" := "dark" ]} false) eq_refl)
    as (p & r & s' & H & _ & _ & _ & Ht & Hr & Hm & _).
  exists p, r, s'. repeat split; try assumption; apply Hm.
Defined.


Lemma setTheme_initialize_roundtrip_witness :
  ∃ r s',
    initialize pref_light "portfolio-theme"
      (loaded browser
         (items (setTheme "portfolio-theme" system (loaded browser ∅ false)).2) true)
      = (Normal (system, r), s') ∧ theme s' = system.
Proof.
  apply (setTheme_initialize_roundtrip "portfolio-theme" system (loaded browser ∅ false));
    reflexivity.
Defined.

Lemma storage_failure_resilience_witness :
  ∃ s', setTheme "portfolio-theme" pref_dark (loaded private_browser ∅ false)
          = (Normal tt, s') ∧
        warnings s' = [save_warning (JsError "localStorage unavailable")].
Proof.
  destruct (storage_failure_resilience system "portfolio-theme" pref_dark
              (loaded private_browser ∅ false) _ _ eq_refl eq_refl eq_refl)
    as [_ (s' & H & _ & _ & _ & Hw)].
  exists s'. split; [exact H|exact Hw].
Defined.

Lemma os_signal_failure_falls_back_to_light_witness :
  (getSystemTheme (loaded old_browser ∅ true)).1 = Normal light.
Proof.
  destruct (os_signal_failure_falls_back_to_light (loaded old_browser ∅ true) _
              eq_refl eq_refl) as [H _].
  rewrite H. reflexivity.
Defined.

Lemma theme_marker_swapped_atomically_witness :
  ∃ s', applyTheme dark (loaded browser ∅ false) = (Normal tt, s') ∧
        marker_present dark s' ∧ ¬ marker_present light s'.
Proof.
  destruct (theme_marker_swapped_atomically (loaded browser ∅ false) eq_refl)
    as [H _].
  destruct (H dark) as (s' & Hs & _ & Hin & Hout & _).
  exists s'. repeat split; assumption.
Defined.

Lemma system_change_updates_resolved_only_witness :
  ∃ s',
    step "portfolio-theme" (SystemThemeChanges true)
      (bind (mount pref_dark "portfolio-theme")
         (fun _ => run "portfolio-theme" [UserSetsTheme system])
         (loaded browser ∅ false)).2 = (Normal tt, s') ∧
    resolvedTheme s' = dark ∧ theme s' = system.
Proof.
  set (s := (bind (mount pref_dark "portfolio-theme")
               (fun _ => run "portfolio-theme" [UserSetsTheme system])
               (loaded browser ∅ false)).2).
  assert (Hrun : bind (mount pref_dark "portfolio-theme")
                   (fun _ => run "portfolio-theme" [UserSetsTheme system])
                   (loaded browser ∅ false) = (Normal tt, s))
    by (vm_compute; reflexivity).
  assert (Hsys : theme s = system) by (vm_compute; reflexivity).
  assert (Hreg : registrable (host s)) by (left; vm_compute; reflexivity).
  destruct (system_change_updates_resolved_only pref_dark "portfolio-theme"
              [UserSetsTheme system] (loaded browser ∅ false) s
              eq_refl eq_refl Hrun) as (_ & H & _).
  destruct (H Hsys Hreg true) as (s' & Hs & Hos & Hres & _ & Ht & _).
  exists s'. split; [exact Hs|]. split; [|exact Ht].
  rewrite Hres. exact Hos.
Defined.

Example subscription_legacy_browser :
  subscribes_through ViaAddListener (loaded legacy_browser ∅ false).
Proof.
  apply (subscription_with_media_query (loaded legacy_browser ∅ false));
    reflexivity.
Qed.

(** * Further properties of the provider and of its callers *)

(** ** Reading and writing the stored preference *)

Lemma valid_theme_Some stored p :
  valid_theme stored = Some p ↔ stored = Some (preference_string p).
Proof.
  split; [|intros ->; apply valid_theme_string].
  destruct stored as [v|]; [|discriminate]. unfold valid_theme.
  repeat case_decide; intros [= <-]; subst; reflexivity.
Qed.

(** X1. With a window and a [getItem] that works, [getStoredTheme] changes
    nothing (no write, no warning) and returns a preference exactly when
    the string stored under the key is the name of that preference, letter
    for letter; any other string, the empty one included, is read as
    nothing stored and stays in the storage. *)
Theorem getStoredTheme_reads_exact_names (key : string) (s : State) :
  has_window (host s) = true →
  getItem_error (host s) = None →
  ∃ r, getStoredTheme key s = (Normal r, s) ∧
       ∀ p, r = Some p ↔ items s !! key = Some (preference_string p).
Proof.
  intros Hw Hg. exists (persisted key s).
  rewrite getStoredTheme_exact by exact Hw.
  unfold read_warnings, persisted. rewrite Hg. split; [reflexivity|].
  intros p. apply valid_theme_Some.
Qed.

Lemma items_setTheme key p s :
  has_window (host s) = true →
  items (setTheme key p s).2 =
    match setItem_error (host s) with
    | None => <[key := preference_string p]> (items s)
    | Some _ => items s
    end.
Proof.
  intros Hw. rewrite setTheme_exact by exact Hw. apply setTheme_outcome_items.
Qed.

(** X2. [setTheme] writes under its own key only: every other key of the
    storage holds what it held, so a provider with another key adopts on
    its next load what it would have adopted before the call. *)
Theorem setTheme_writes_own_key_only
    (key other_key : string) (p d : ThemePreference) (s : State) :
  has_window (host s) = true →
  other_key ≠ key →
  items (setTheme key p s).2 !! other_key = items s !! other_key ∧
  ((initialize d other_key (setTheme key p s).2).1 : completion (ThemePreference * ResolvedTheme))
    = (initialize d other_key s).1.
Proof.
  intros Hw Hne.
  assert (Hi : items (setTheme key p s).2 !! other_key = items s !! other_key).
  { rewrite items_setTheme by exact Hw.
    destruct (setItem_error (host s)); [reflexivity|].
    apply lookup_insert_ne. congruence. }
  split; [exact Hi|].
  rewrite setTheme_exact in * by exact Hw. cbn [snd] in *.
  rewrite !initialize_exact
    by (rewrite ?host_setTheme_outcome; exact Hw).
  cbn [fst].
  assert (Hp : persisted other_key (setTheme_outcome key p s) = persisted other_key s).
  { unfold persisted. rewrite host_setTheme_outcome, Hi. reflexivity. }
  rewrite Hp.
  assert (Hd : prefers_dark (setTheme_outcome key p s) = prefers_dark s).
  { unfold setTheme_outcome, saved. simpl.
    destruct (resolution_warnings p _), (setItem_error (host _)); reflexivity. }
  destruct (resolution_frame (or_default d (persisted other_key s)) s
              (setTheme_outcome key p s) (host_setTheme_outcome key p s) Hd) as [-> _].
  reflexivity.
Qed.

(** X3. When [setItem] throws and [getItem] works, the choice made with
    [setTheme] does not survive a reload: a page that starts from the
    storage the call left adopts what the storage held before the call
    (or the default), as if [setTheme] had not been called. *)
Theorem setTheme_unsaved_choice_is_lost
    (key : string) (p d : ThemePreference) (s reloaded : State) (e : js_error) :
  has_window (host s) = true →
  setItem_error (host s) = Some e →
  items reloaded = items (setTheme key p s).2 →
  has_window (host reloaded) = true →
  getItem_error (host reloaded) = None →
  ∃ r s', initialize d key reloaded =
            (Normal (or_default d (valid_theme (items s !! key)), r), s').
Proof.
  intros Hw He Hitems Hw' Hg.
  rewrite items_setTheme, He in Hitems by exact Hw.
  rewrite initialize_exact by exact Hw'.
  unfold persisted. rewrite Hg, Hitems. eexists _, _. reflexivity.
Qed.

Lemma other_classes_swapped r classes :
  other_classes (swapped r classes) = other_classes classes.
Proof.
  unfold other_classes, swapped. rewrite filter_app.
  rewrite filter_cons_False, filter_nil, app_nil_r.
  - apply filter_all. intros c [Hc _]%list_elem_of_filter. exact Hc.
  - intros Hnot. apply Hnot. destruct r; simpl; rewrite !elem_of_cons; auto.
Qed.

Lemma swapped_swapped r r' classes :
  swapped r' (swapped r classes) = swapped r' classes.
Proof.
  unfold swapped at 1 3. fold (other_classes (swapped r classes)).
  rewrite other_classes_swapped. reflexivity.
Qed.

Lemma prefers_dark_setTheme_outcome key p s :
  prefers_dark (setTheme_outcome key p s) = prefers_dark s.
Proof.
  unfold setTheme_outcome, saved. simpl.
  destruct (resolution_warnings p _), (setItem_error (host _)); reflexivity.
Qed.

Lemma classList_setTheme_outcome key p s :
  classList (setTheme_outcome key p s) = swapped (resolution p s) (classList s).
Proof.
  unfold setTheme_outcome, saved. simpl.
  destruct (resolution_warnings p _), (setItem_error (host _)); reflexivity.
Qed.

(** X4. The last call of [setTheme] wins: after [setTheme p] and then
    [setTheme q] the preference, the resolved theme, the class list of
    the render target and the storage are what [setTheme q] alone leaves
    (only the log of warnings can tell the two apart); in particular a
    second [setTheme p] changes none of them. *)
Theorem setTheme_last_call_wins (key : string) (p q : ThemePreference) (s : State) :
  has_window (host s) = true →
  let twice := (setTheme key q (setTheme key p s).2).2 in
  let once := (setTheme key q s).2 in
  theme twice = theme once ∧ resolvedTheme twice = resolvedTheme once ∧
  classList twice = classList once ∧ items twice = items once.
Proof.
  intros Hw twice once. unfold twice, once.
  rewrite (setTheme_exact key p s) by exact Hw. cbn [snd].
  rewrite !setTheme_exact by (rewrite ?host_setTheme_outcome; exact Hw).
  cbn [snd].
  destruct (resolution_frame q s (setTheme_outcome key p s)
              (host_setTheme_outcome key p s) (prefers_dark_setTheme_outcome key p s))
    as [Hres _].
  rewrite !setTheme_outcome_theme, !setTheme_outcome_resolvedTheme,
    !classList_setTheme_outcome, !setTheme_outcome_items, host_setTheme_outcome, Hres.
  split; [reflexivity|]. split; [reflexivity|]. split.
  - apply swapped_swapped.
  - destruct (setItem_error (host s)); [reflexivity|]. apply insert_insert_eq.
Qed.

(** ** A whole life of an instance: what each step leaves *)

Lemma invoke_frame f b s c s' :
  invoke f b s = (c, s') →
  c = Normal tt ∧ host s' = host s ∧ theme s' = theme s ∧ items s' = items s ∧
  prefers_dark s' = prefers_dark s ∧ warnings s' = warnings s.
Proof.
  destruct f; simpl.
  - unfold handleSystemThemeChange, applyTheme. eff_simpl.
    destruct (has_window (host s)); simpl.
    + case_decide; intros [= <- <-]; repeat split.
    + intros [= <- <-]; repeat split.
  - intros [= <- <-]; repeat split.
Qed.

Lemma dispatch_frame registered b s c s' :
  dispatch registered b s = (c, s') →
  c = Normal tt ∧ host s' = host s ∧ theme s' = theme s ∧ items s' = items s ∧
  prefers_dark s' = prefers_dark s ∧ warnings s' = warnings s.
Proof.
  revert s. induction registered as [|l rest IH]; intros s; simpl.
  - intros [= <- <-]. repeat split.
  - intros [(a & s1 & H1 & H2)|(e & H1 & _)]%bind_inv.
    + apply invoke_frame in H1 as (_ & ? & ? & ? & ? & ?).
      apply IH in H2 as (-> & ? & ? & ? & ? & ?).
      repeat split; congruence.
    + apply invoke_frame in H1 as [? _]. discriminate.
Qed.

Lemma systemThemeChanges_frame b s :
  ∃ s', systemThemeChanges b s = (Normal tt, s') ∧
        host s' = host s ∧ theme s' = theme s ∧ items s' = items s ∧
        prefers_dark s' = b ∧ warnings s' = warnings s ∧ same_subscription s s'.
Proof.
  destruct (systemThemeChanges_total b s) as (s' & H & F & Hd).
  exists s'. split; [exact H|].
  unfold systemThemeChanges, bind at 1 2, modify, gets in H.
  apply dispatch_frame in H as (_ & ? & ? & ? & _ & ?).
  repeat split; try assumption; apply F.
Qed.

(** What mounting leaves of the preference, of the storage and of the
    render target, whether the second effect throws or not. *)
Lemma mount_frame d key s c s' :
  has_window (host s) = true → mount d key s = (c, s') →
  let p := or_default d (persisted key s) in
  host s' = host s ∧ theme s' = p ∧ items s' = items s ∧
  prefers_dark s' = prefers_dark s ∧ resolvedTheme s' = resolution p s ∧
  classList s' = swapped (resolution p s) (classList s).
Proof.
  intros Hw H p. unfold mount, bind at 1 2, modify in H.
  rewrite initializeEffect_exact in H by exact Hw.
  set (s0 := with_subscription d None (with_resolvedTheme light (with_theme d s))) in H.
  set (s1 := initialize_outcome d key s0) in H.
  assert (Hs1 : host s1 = host s ∧ theme s1 = p ∧ items s1 = items s ∧
                prefers_dark s1 = prefers_dark s ∧ resolvedTheme s1 = resolution p s ∧
                classList s1 = swapped (resolution p s) (classList s)).
  { unfold s1, initialize_outcome. simpl.
    change (persisted key s0) with (persisted key s).
    change (resolution (or_default d (persisted key s)) s0) with (resolution p s).
    fold p. rewrite !host_warned, !prefers_dark_warned.
    destruct (resolution_warnings p s0), (read_warnings s0); repeat split. }
  assert (F : same_theme s1 s').
  { apply bind_inv in H as [(a & s2 & H1 & H2)|(e & H1 & _)].
    - apply systemChangeEffect_frame in H1.
      unfold bind at 1, modify in H2. apply commitSystemChangeEffect_frame in H2.
      apply (same_theme_trans _ _ _ H1). apply (same_theme_trans _ (with_subscription d a s2)).
      + repeat split.
      + exact H2.
    - exact (systemChangeEffect_frame _ _ _ _ H1). }
  destruct F as (-> & -> & -> & -> & -> & ->). exact Hs1.
Qed.

Lemma step_choice key ev s s' c :
  has_window (host s) = true → step key ev s = (c, s') →
  host s' = host s ∧ theme s' = last_choice [ev] (theme s) ∧
  (setItem_error (host s) = None → items s' = stored_after key [ev] (items s)).
Proof.
  intros Hw H. destruct ev as [p|b]; simpl in *.
  - unfold bind at 1 in H. rewrite setTheme_exact in H by exact Hw.
    apply commitSystemChangeEffect_frame in H as (-> & -> & _ & _ & -> & _).
    rewrite host_setTheme_outcome, setTheme_outcome_theme, setTheme_outcome_items.
    repeat split. intros ->. reflexivity.
  - destruct (systemThemeChanges_frame b s) as (s1 & H1 & Hh & Ht & Hi & _).
    unfold bind at 1 in H. rewrite H1 in H.
    apply commitSystemChangeEffect_frame in H as (-> & -> & _ & _ & -> & _).
    repeat split; congruence.
Qed.

Lemma run_choice key evs s s' :
  has_window (host s) = true → run key evs s = (Normal tt, s') →
  host s' = host s ∧ theme s' = last_choice evs (theme s) ∧
  (setItem_error (host s) = None → items s' = stored_after key evs (items s)).
Proof.
  revert s. induction evs as [|ev rest IH]; intros s Hw H; simpl in H.
  - injection H as <-. repeat split.
  - apply bind_inv in H as [(a & s1 & H1 & H2)|(e & _ & ?)]; [|discriminate].
    apply step_choice in H1 as (Hh & Ht & Hi); [|exact Hw].
    apply IH in H2 as (Hh' & Ht' & Hi'); [|congruence].
    split; [congruence|]. destruct ev as [q|b]; simpl in *.
    + split; [congruence|]. intros Hs. rewrite Hi', Hi; [reflexivity|exact Hs|congruence].
    + split; [congruence|]. intros Hs. rewrite Hi', Hi; [reflexivity|exact Hs|congruence].
Qed.

(** X5. In a life that ends normally (mounting, then any events), the
    preference at the end is the last one the user chose, and the one
    adopted at mounting when the user chose none: a change of the OS
    signal never changes it.  When [setItem] works, the storage at the
    end is the storage at the start with the name of each choice written
    under the key in turn: mounting and changes of the OS signal write
    nothing, so a default that was adopted is never stored. *)
Theorem session_keeps_last_choice
    (d : ThemePreference) (key : string) (evs : list event) (s0 s : State) :
  has_window (host s0) = true →
  session d key evs s0 = (Normal tt, s) →
  theme s = last_choice evs (or_default d (persisted key s0)) ∧
  (setItem_error (host s0) = None → items s = stored_after key evs (items s0)).
Proof.
  intros Hw H. unfold session in H.
  apply bind_inv in H as [(a & s1 & H1 & H2)|(e & _ & ?)]; [|discriminate].
  apply mount_frame in H1 as (Hh & Ht & Hi & _); [|exact Hw].
  apply run_choice in H2 as (_ & Ht' & Hi'); [|congruence].
  rewrite Ht', Ht. split; [reflexivity|].
  intros Hs. rewrite Hi', Hi; [reflexivity|congruence].
Qed.

(** ** The class list of the render target *)

Section ClassListInvariant.

(** A property of the class list and of [resolvedTheme] that every
    application of a theme keeps. *)
Variable P : State → Prop.
Hypothesis P_frame :
  ∀ s s', classList s' = classList s → resolvedTheme s' = resolvedTheme s → P s → P s'.
Hypothesis P_applied : ∀ r s, P s → P (applied r s).

Lemma dispatch_keeps registered b s c s' :
  has_window (host s) = true → P s → dispatch registered b s = (c, s') → P s'.
Proof.
  revert s. induction registered as [|[api f] rest IH]; intros s Hw HP; simpl.
  - intros [= _ <-]. exact HP.
  - intros [(a & s1 & H1 & H2)|(e & H1 & _)]%bind_inv.
    + apply (IH s1); [| |exact H2].
      * apply invoke_frame in H1 as (_ & -> & _). exact Hw.
      * destruct f; simpl in H1.
        -- rewrite handleSystemThemeChange_exact in H1 by exact Hw.
           injection H1 as _ <-. apply P_applied. exact HP.
        -- injection H1 as _ <-. exact HP.
    + apply invoke_frame in H1 as [? _]. discriminate.
Qed.

Lemma step_keeps key ev s c s' :
  has_window (host s) = true → P s → step key ev s = (c, s') → P s'.
Proof.
  intros Hw HP H. destruct ev as [p|b]; simpl in H.
  - unfold bind at 1 in H. rewrite setTheme_exact in H by exact Hw.
    apply commitSystemChangeEffect_frame in H as (_ & _ & _ & Hc & _ & Hr).
    apply (P_frame _ _ Hc Hr). unfold setTheme_outcome. apply P_applied.
    eapply P_frame; [| |exact HP].
    + unfold saved. destruct (resolution_warnings p _), (setItem_error _); reflexivity.
    + unfold saved. destruct (resolution_warnings p _), (setItem_error _); reflexivity.
  - apply bind_inv in H as [(a & s1 & H1 & H2)|(e & H1 & _)].
    + apply commitSystemChangeEffect_frame in H2 as (_ & _ & _ & Hc & _ & Hr).
      apply (P_frame _ _ Hc Hr).
      unfold systemThemeChanges, bind at 1 2, modify, gets in H1.
      apply dispatch_keeps in H1; [exact H1|exact Hw|].
      eapply P_frame; [| |exact HP]; reflexivity.
    + unfold systemThemeChanges, bind at 1 2, modify, gets in H1.
      apply dispatch_frame in H1 as [? _]. discriminate.
Qed.

Lemma run_keeps key evs s c s' :
  has_window (host s) = true → P s → run key evs s = (c, s') → P s'.
Proof.
  revert s. induction evs as [|ev rest IH]; intros s Hw HP H; simpl in H.
  - injection H as _ <-. exact HP.
  - apply bind_inv in H as [(a & s1 & H1 & H2)|(e & H1 & _)].
    + apply (IH s1); [|exact (step_keeps _ _ _ _ _ Hw HP H1)|exact H2].
      destruct (step_choice _ _ _ _ _ Hw H1) as (-> & _). exact Hw.
    + exact (step_keeps _ _ _ _ _ Hw HP H1).
Qed.

End ClassListInvariant.

Lemma other_classes_idem classes : other_classes (other_classes classes) = other_classes classes.
Proof.
  unfold other_classes. apply filter_all.
  intros c [Hc _]%list_elem_of_filter. exact Hc.
Qed.

Lemma swapped_shape r r0 base :
  other_classes base = base →
  swapped r (base ++ [resolved_string r0]) = base ++ [resolved_string r].
Proof.
  intros Hbase. unfold swapped. fold (other_classes (base ++ [resolved_string r0])).
  unfold other_classes in *. rewrite filter_app, Hbase.
  rewrite filter_cons_False, filter_nil, app_nil_r; [reflexivity|].
  intros Hnot. apply Hnot. destruct r0; simpl; rewrite !elem_of_cons; auto.
Qed.

(** X6. Once the provider is mounted on a page with a window, at every
    state between two events (and the one an effect that throws ends in)
    the class list of the document root is the classes it had before
    mounting that are not theme markers, in their order, followed by the
    marker of [resolvedTheme]: no class of the page is lost or moved, and
    markers do not pile up, however many times the theme changes. *)
Theorem session_class_list_shape
    (d : ThemePreference) (key : string) (evs : list event) (s0 s : State)
    (c : completion unit) :
  has_window (host s0) = true →
  session d key evs s0 = (c, s) →
  classList s = other_classes (classList s0) ++ [resolved_string (resolvedTheme s)].
Proof.
  intros Hw H. unfold session in H.
  set (base := other_classes (classList s0)).
  assert (Hbase : other_classes base = base) by apply other_classes_idem.
  set (P := fun s : State => classList s = base ++ [resolved_string (resolvedTheme s)]).
  assert (P_frame : ∀ s s', classList s' = classList s →
            resolvedTheme s' = resolvedTheme s → P s → P s').
  { unfold P. intros s1 s2 -> ->. trivial. }
  assert (P_applied : ∀ r s, P s → P (applied r s)).
  { unfold P. intros r s1 HP. simpl. rewrite HP. apply swapped_shape. exact Hbase. }
  change (P s).
  apply bind_inv in H as [(a & s1 & H1 & H2)|(e & H1 & _)].
  - apply mount_frame in H1 as (Hh & _ & _ & _ & Hr & Hc); [|exact Hw].
    apply (run_keeps P P_frame P_applied key evs s1 c s); [congruence| |exact H2].
    unfold P. rewrite Hc, Hr. reflexivity.
  - apply mount_frame in H1 as (Hh & _ & _ & _ & Hr & Hc); [|exact Hw].
    unfold P. rewrite Hc, Hr. reflexivity.
Qed.

(** ** The resolved theme follows the preference and the OS *)

Lemma effect_needs_media s c s' :
  has_window (host s) = true →
  systemChangeEffect system s = (Normal c, s') → matchMedia_error (host s) = None.
Proof.
  intros Hw. rewrite systemChangeEffect_system by exact Hw. unfold listening.
  destruct (matchMedia_error (host s)); [discriminate|reflexivity].
Qed.

(** A render that changes [theme] to [system] runs the subscribing
    effect, which needs the media query. *)
Lemma commit_needs_media s s' :
  has_window (host s) = true → theme s = system → rendered_theme s ≠ system →
  commitSystemChangeEffect s = (Normal tt, s') → matchMedia_error (host s) = None.
Proof.
  intros Hw Ht Hr H. unfold commitSystemChangeEffect in H.
  unfold bind at 1 2, gets in H.
  rewrite bool_decide_eq_false_2 in H by congruence.
  unfold bind at 1, gets in H.
  apply bind_inv in H as [(a & s1 & H1 & H2)|(e & _ & ?)]; [|discriminate].
  assert (F : same_theme s s1).
  { destruct (cleanup s); [exact (runCleanup_frame _ _ _ _ H1)|].
    injection H1 as _ <-. apply same_theme_refl. }
  destruct F as (Hh & _).
  unfold bind at 1, modify in H2.
  apply bind_inv in H2 as [(c & s2 & H2 & _)|(e & _ & ?)]; [|discriminate].
  rewrite Ht in H2. apply effect_needs_media in H2; [|simpl; congruence].
  simpl in H2. congruence.
Qed.

Lemma commit_rendered s :
  theme s = rendered_theme s → commitSystemChangeEffect s = (Normal tt, s).
Proof.
  intros Heq. unfold commitSystemChangeEffect, bind at 1 2, gets.
  rewrite bool_decide_eq_true_2 by exact Heq. reflexivity.
Qed.

Lemma invariant_no_listener s :
  subscription_invariant s → theme s ≠ system → own_listeners s = [].
Proof.
  intros (Hdep & _ & Hown & _ & Hcl & _) Hne. rewrite Hown.
  destruct (cleanup s) as [c|]; [|reflexivity].
  destruct (Hcl c eq_refl) as [Hsys _]. congruence.
Qed.

Lemma invariant_listener s :
  subscription_invariant s → theme s = system → registrable (host s) →
  own_listeners s ≠ [].
Proof.
  intros (Hdep & _ & Hown & _ & _ & Hreg) Hsys Hr. rewrite Hown.
  specialize (Hreg ltac:(congruence) Hr).
  destruct (cleanup s); [discriminate|contradiction].
Qed.

Lemma step_settled key ev s s' :
  subscription_invariant s → themed s → settled s →
  (theme s = system → matchMedia_error (host s) = None) →
  step key ev s = (Normal tt, s') →
  settled s' ∧ (theme s' = system → matchMedia_error (host s') = None).
Proof.
  intros Hinv Hth Hset Hmedia H.
  pose proof Hinv as (Hdep & Hw & _).
  destruct ev as [p|b]; simpl in H.
  - unfold bind at 1 in H. rewrite setTheme_exact in H by exact Hw.
    pose proof H as Hcommit.
    apply commitSystemChangeEffect_frame in H as (Hh & _ & Hd & _ & Ht & Hr).
    rewrite host_setTheme_outcome in Hh.
    rewrite prefers_dark_setTheme_outcome in Hd.
    rewrite setTheme_outcome_theme in Ht.
    rewrite setTheme_outcome_resolvedTheme in Hr.
    assert (Hm : p = system → matchMedia_error (host s) = None).
    { intros ->. destruct (decide (theme s = system)) as [Hsys|Hne]; [auto|].
      apply commit_needs_media in Hcommit.
      - rewrite host_setTheme_outcome in Hcommit. exact Hcommit.
      - rewrite host_setTheme_outcome. exact Hw.
      - apply setTheme_outcome_theme.
      - destruct (same_subscription_setTheme key system s) as (_ & _ & _ & -> & _).
        congruence. }
    split; [split|].
    + intros Hne. rewrite Hr, Ht. apply resolution_resolves. congruence.
    + intros Hsys _. rewrite Hr. unfold OSColorScheme. rewrite Hd.
      rewrite Ht in Hsys. rewrite Hsys. unfold resolution.
      rewrite (Hm Hsys). reflexivity.
    + rewrite Ht, Hh. exact Hm.
  - destruct (decide (theme s = system)) as [Hsys|Hne].
    + destruct (systemThemeChanges_frame b s) as (s1 & H1 & Hh1 & Ht1 & _ & Hd1 & _ & F1).
      unfold bind at 1 in H. rewrite H1 in H.
      rewrite commit_rendered in H
        by (destruct F1 as (_ & _ & _ & -> & _); congruence).
      injection H as <-.
      split; [split|].
      * intros Hn. congruence.
      * intros _ Hreg. rewrite Hh1 in Hreg.
        destruct (systemThemeChanges_listening b s Hw Hth
                    (invariant_listener s Hinv Hsys Hreg))
          as (s2 & H2 & Hres & _ & _ & _ & _ & Hd2).
        rewrite H1 in H2. injection H2 as <-.
        unfold OSColorScheme. rewrite Hres, Hd1. reflexivity.
      * intros _. rewrite Hh1. auto.
    + pose proof (systemThemeChanges_unsubscribed b s (invariant_no_listener s Hinv Hne))
        as H1.
      unfold bind at 1 in H. rewrite H1 in H.
      rewrite commit_rendered in H by exact Hdep.
      injection H as <-. simpl. split; [split|].
      * intros _. apply Hset. exact Hne.
      * intros Hsys. contradiction.
      * intros Hsys. contradiction.
Qed.

Lemma run_settled key evs s s' :
  subscription_invariant s → themed s → settled s →
  (theme s = system → matchMedia_error (host s) = None) →
  run key evs s = (Normal tt, s') →
  settled s' ∧ (theme s' = system → matchMedia_error (host s') = None).
Proof.
  revert s. induction evs as [|ev rest IH]; intros s Hinv Hth Hset Hm H; simpl in H.
  - injection H as <-. split; assumption.
  - apply bind_inv in H as [(a & s1 & H1 & H2)|(e & _ & ?)]; [|discriminate].
    destruct a.
    destruct (step_settled _ _ _ _ Hinv Hth Hset Hm H1) as [Hset1 Hm1].
    pose proof Hinv as (_ & Hw & _).
    apply (IH s1); try assumption.
    + exact (step_invariant _ _ _ _ Hinv H1).
    + exact (proj1 (step_themed _ _ _ _ _ Hw H1 Hth)).
Qed.

Lemma mount_needs_media d key s s' :
  has_window (host s) = true → mount d key s = (Normal tt, s') →
  theme s' = system → matchMedia_error (host s) = None.
Proof.
  intros Hw H Hsys.
  pose proof (mount_frame _ _ _ _ _ Hw H) as (_ & Ht & _).
  unfold mount, bind at 1 2, modify in H.
  rewrite initializeEffect_exact in H by exact Hw.
  set (s1 := initialize_outcome _ _ _) in H.
  assert (Hh1 : host s1 = host s) by (unfold s1; rewrite host_initialize_outcome; reflexivity).
  apply bind_inv in H as [(a & s2 & H1 & H2)|(e & _ & ?)]; [|discriminate].
  destruct (decide (d = system)) as [->|Hd].
  - apply effect_needs_media in H1; congruence.
  - apply systemChangeEffect_frame in H1 as (Hh2 & _ & _ & _ & Ht2 & _).
    unfold bind at 1, modify in H2.
    pose proof H2 as H3.
    apply commitSystemChangeEffect_frame in H3 as (_ & _ & _ & _ & Ht3 & _).
    apply commit_needs_media in H2; simpl in *; congruence.
Qed.

(** What holds between two events of a life that runs normally. *)
Lemma session_invariants d key evs s0 s :
  has_window (host s0) = true → own_listeners s0 = [] →
  session d key evs s0 = (Normal tt, s) →
  subscription_invariant s ∧ themed s ∧ settled s ∧ host s = host s0 ∧
  (theme s = system → matchMedia_error (host s) = None).
Proof.
  intros Hw Hown H. unfold session in H.
  apply bind_inv in H as [(a & s1 & H1 & H2)|(e & _ & ?)]; [|discriminate].
  destruct a.
  pose proof (mount_invariant _ _ _ _ Hw Hown H1) as Hinv1.
  destruct (mount_themed _ _ _ _ _ Hw H1) as [Hth1 Hh1].
  pose proof (mount_frame _ _ _ _ _ Hw H1) as (_ & Ht1 & _ & Hd1 & Hr1 & _).
  assert (Hw1 : has_window (host s1) = true) by congruence.
  assert (Hm1 : theme s1 = system → matchMedia_error (host s1) = None).
  { intros Hsys. rewrite Hh1. exact (mount_needs_media _ _ _ _ Hw H1 Hsys). }
  assert (Hset1 : settled s1).
  { split.
    - intros Hne. rewrite Hr1, Ht1. apply resolution_resolves. congruence.
    - intros Hsys _. rewrite Hr1. unfold OSColorScheme. rewrite Hd1.
      rewrite Ht1 in Hsys. rewrite Hsys. unfold resolution.
      rewrite Hh1 in Hm1. rewrite (Hm1 ltac:(congruence)). reflexivity. }
  destruct (run_settled key evs s1 s Hinv1 Hth1 Hset1 Hm1 H2) as [Hset Hm].
  split; [exact (run_invariant _ _ _ _ Hinv1 H2)|].
  split; [exact (run_themed _ _ _ _ _ Hw1 H2 Hth1)|].
  split; [exact Hset|]. split; [|exact Hm].
  destruct (run_choice _ _ _ _ Hw1 H2) as (-> & _). exact Hh1.
Qed.

(** X7. For an instance mounted on a page with a window (no closure of
    its listener registered before), at every state between two events of
    a life that runs normally: when the preference is 'light' or 'dark'
    the resolved theme is that value, whatever the OS signal did in the
    meantime; when the preference is [system] and the media query can
    register a listener, the resolved theme is what the OS reports at
    that moment. *)
Theorem session_resolved_follows_preference
    (d : ThemePreference) (key : string) (evs : list event) (s0 s : State) :
  has_window (host s0) = true →
  own_listeners s0 = [] →
  session d key evs s0 = (Normal tt, s) →
  (theme s ≠ system → as_preference (resolvedTheme s) = theme s) ∧
  (theme s = system → registrable (host s) → resolvedTheme s = OSColorScheme s).
Proof.
  intros Hw Hown H.
  destruct (session_invariants _ _ _ _ _ Hw Hown H) as (_ & _ & Hset & _).
  exact Hset.
Qed.

(** ** The listeners of the media query *)

Lemma foreign_all (l : list (registration_api * callback)) :
  filter (fun x => is_own (x.2)) l = [] → filter (fun x => ¬ is_own (x.2)) l = l.
Proof.
  induction l as [|x l IH]; [reflexivity|].
  rewrite !filter_cons. destruct (decide (is_own (x.2))) as [Hx|Hx]; [discriminate|].
  intros Hl. rewrite decide_True by exact Hx. rewrite IH by exact Hl. reflexivity.
Qed.

Lemma foreign_register api n s :
  foreign_listeners (register api (HandleSystemThemeChange n) s) = foreign_listeners s.
Proof.
  unfold foreign_listeners, register. case_decide; [reflexivity|]. simpl.
  rewrite filter_app, filter_cons_False, filter_nil, app_nil_r; [reflexivity|].
  simpl. intros Hnot. apply Hnot. exact I.
Qed.

Lemma foreign_unregister api n s :
  foreign_listeners (unregister api (HandleSystemThemeChange n) s) = foreign_listeners s.
Proof.
  unfold foreign_listeners, unregister. simpl. rewrite filter_comm.
  apply filter_all. intros [api' f] [Hf _]%list_elem_of_filter [= -> ->].
  apply Hf. exact I.
Qed.

Lemma listening_foreign s c s' :
  listening s = (c, s') → foreign_listeners s' = foreign_listeners s.
Proof.
  unfold listening. intros H.
  repeat case_match; simplify_eq; try reflexivity;
    rewrite foreign_register; reflexivity.
Qed.

Lemma systemChangeEffect_foreign t s c s' :
  systemChangeEffect t s = (c, s') → foreign_listeners s' = foreign_listeners s.
Proof.
  destruct (has_window (host s)) eqn:Hw.
  - destruct (decide (t = system)) as [->|Ht].
    + rewrite systemChangeEffect_system by exact Hw. apply listening_foreign.
    + rewrite systemChangeEffect_literal by exact Ht. intros [= _ <-]. reflexivity.
  - rewrite systemChangeEffect_no_window by exact Hw. intros [= _ <-]. reflexivity.
Qed.

Lemma subscribed_cleanup_own s c :
  subscribed s → cleanup s = Some c → ∃ api n, c = (api, HandleSystemThemeChange n).
Proof.
  intros (_ & Hown & _) Hc. rewrite Hc in Hown.
  assert (Hin : c ∈ own_listeners s) by (rewrite Hown; left).
  apply list_elem_of_filter in Hin as [Hc' _].
  destruct c as [api [n|n]]; [eauto|contradiction].
Qed.

Lemma commit_foreign s s' :
  subscribed s → commitSystemChangeEffect s = (Normal tt, s') →
  foreign_listeners s' = foreign_listeners s.
Proof.
  intros Hs H. unfold commitSystemChangeEffect in H.
  unfold bind at 1 2, gets in H.
  case_bool_decide; [injection H as <-; reflexivity|].
  destruct (cleanup_before_rerun s Hs) as (s1 & Hrun & _).
  assert (F1 : foreign_listeners s1 = foreign_listeners s).
  { destruct (cleanup s) as [c|] eqn:Hc.
    - destruct (subscribed_cleanup_own s c Hs Hc) as (api & n & ->).
      destruct (runCleanup_unsubscribes s _ Hs Hc) as (Hr & _).
      rewrite Hr in Hrun. injection Hrun as <-. apply foreign_unregister.
    - injection Hrun as <-. reflexivity. }
  unfold bind at 1 2, gets in H. rewrite Hrun in H.
  unfold bind at 1, modify in H.
  apply bind_inv in H as [(c' & s2 & H2 & H3)|(e & _ & ?)]; [|discriminate].
  injection H3 as <-. apply systemChangeEffect_foreign in H2.
  unfold foreign_listeners in *. simpl in *. congruence.
Qed.

Lemma step_foreign key ev s s' :
  subscription_invariant s → step key ev s = (Normal tt, s') →
  foreign_listeners s' = foreign_listeners s.
Proof.
  intros [_ Hs] H. pose proof Hs as (Hw & _).
  destruct ev as [p|b]; simpl in H.
  - unfold bind at 1 in H. rewrite setTheme_exact in H by exact Hw.
    pose proof (same_subscription_setTheme key p s) as F.
    apply commit_foreign in H; [|exact (same_subscription_subscribed _ _ F Hs)].
    rewrite H. unfold foreign_listeners. destruct F as (_ & -> & _). reflexivity.
  - destruct (systemThemeChanges_total b s) as (s1 & H1 & F & _).
    unfold bind at 1 in H. rewrite H1 in H.
    apply commit_foreign in H; [|exact (same_subscription_subscribed _ _ F Hs)].
    rewrite H. unfold foreign_listeners. destruct F as (_ & -> & _). reflexivity.
Qed.

Lemma run_foreign key evs s s' :
  subscription_invariant s → run key evs s = (Normal tt, s') →
  foreign_listeners s' = foreign_listeners s.
Proof.
  revert s. induction evs as [|ev rest IH]; intros s Hinv H; simpl in H.
  - injection H as <-. reflexivity.
  - apply bind_inv in H as [(a & s1 & H1 & H2)|(e & _ & ?)]; [|discriminate].
    destruct a. rewrite (IH s1 (step_invariant _ _ _ _ Hinv H1) H2).
    exact (step_foreign _ _ _ _ Hinv H1).
Qed.

Lemma mount_foreign d key s s' :
  has_window (host s) = true → own_listeners s = [] →
  mount d key s = (Normal tt, s') → foreign_listeners s' = foreign_listeners s.
Proof.
  intros Hw Hown H. unfold mount, bind at 1 2, modify in H.
  rewrite initializeEffect_exact in H by exact Hw.
  set (s1 := initialize_outcome _ _ _) in H.
  assert (Hh1 : host s1 = host s) by (unfold s1; rewrite host_initialize_outcome; reflexivity).
  assert (Hl1 : listeners s1 = listeners s).
  { unfold s1, initialize_outcome. simpl. set (w1 := warned (read_warnings _) _).
    transitivity (listeners w1); [destruct (resolution_warnings _ _); reflexivity|].
    unfold w1. destruct (read_warnings _); reflexivity. }
  assert (Hown1 : own_listeners s1 = []) by (unfold own_listeners; rewrite Hl1; exact Hown).
  apply bind_inv in H as [(c & s2 & H1 & H2)|(e & _ & ?)]; [|discriminate].
  pose proof (systemChangeEffect_foreign _ _ _ _ H1) as F1.
  apply systemChangeEffect_subscribes in H1; [|congruence|exact Hown1].
  unfold bind at 1, modify in H2.
  apply commit_foreign in H2; [|exact H1].
  rewrite H2. unfold foreign_listeners in *. simpl. rewrite F1, Hl1. reflexivity.
Qed.

(** X8. For an instance mounted on a page with a window on which no
    closure of its listener is registered, at every state between two
    events of a life that runs normally: the instance has at most one
    listener on the media query; the listeners of other code are the ones
    that were there before mounting, in their order; and unmounting the
    instance then returns normally and leaves the listeners of the media
    query exactly as they were before mounting. *)
Theorem session_listener_discipline
    (d : ThemePreference) (key : string) (evs : list event) (s0 s : State) :
  has_window (host s0) = true →
  own_listeners s0 = [] →
  session d key evs s0 = (Normal tt, s) →
  (List.length (own_listeners s) ≤ 1)%nat ∧
  foreign_listeners s = listeners s0 ∧
  ∃ s', unmount s = (Normal tt, s') ∧ listeners s' = listeners s0 ∧ cleanup s' = None.
Proof.
  intros Hw Hown H. unfold session in H.
  apply bind_inv in H as [(a & s1 & H1 & H2)|(e & _ & ?)]; [|discriminate].
  destruct a.
  pose proof (mount_invariant _ _ _ _ Hw Hown H1) as Hinv1.
  pose proof (run_invariant _ _ _ _ Hinv1 H2) as Hinv.
  assert (Hf : foreign_listeners s = listeners s0).
  { rewrite (run_foreign _ _ _ _ Hinv1 H2), (mount_foreign _ _ _ _ Hw Hown H1).
    apply foreign_all. exact Hown. }
  destruct Hinv as (_ & Hs). pose proof Hs as (_ & Hown' & _).
  split; [|split; [exact Hf|]].
  - rewrite Hown'. destruct (cleanup s); simpl; lia.
  - unfold unmount, bind at 1, gets.
    destruct (cleanup s) as [c|] eqn:Hc.
    + destruct (subscribed_cleanup_own s c Hs Hc) as (api & n & ->).
      destruct (runCleanup_unsubscribes s _ Hs Hc) as (Hr & Ho & _).
      unfold bind, modify. rewrite Hr. eexists. split; [reflexivity|].
      split; [|reflexivity]. cbn [listeners with_subscription].
      rewrite <- Hf, <- (foreign_unregister api n s).
      symmetry. apply foreign_all. exact Ho.
    + exists s. split; [reflexivity|]. split; [|exact Hc].
      rewrite <- Hf. symmetry. apply foreign_all. exact Hown'.
Qed.

(** ** A browser in which nothing throws *)

Lemma healthy_resolution_warnings p s :
  matchMedia_error (host s) = None → resolution_warnings p s = [].
Proof. intros Hm. unfold resolution_warnings. rewrite Hm. destruct p; reflexivity. Qed.

Lemma warnings_register api f s : warnings (register api f s) = warnings s.
Proof. unfold register. case_decide; reflexivity. Qed.

Lemma systemChangeEffect_healthy t s :
  healthy (host s) →
  ∃ c s', systemChangeEffect t s = (Normal c, s') ∧ warnings s' = warnings s.
Proof.
  intros (Hw & _ & _ & Hm & Ha & Hl).
  destruct (decide (t = system)) as [->|Ht].
  - rewrite systemChangeEffect_system by exact Hw. unfold listening. rewrite Hm.
    destruct (addEventListener_cap (host s)) as [| |e] eqn:Ea;
      [|eexists _, _; split; [reflexivity|rewrite warnings_register; reflexivity]
       |destruct (Ha e eq_refl)].
    destruct (addListener_cap (host s)) as [| |e] eqn:El;
      [eexists _, _; split; reflexivity
      |eexists _, _; split; [reflexivity|rewrite warnings_register; reflexivity]
      |destruct (Hl e eq_refl)].
  - rewrite systemChangeEffect_literal by exact Ht. eexists _, _. split; reflexivity.
Qed.

Lemma commit_healthy s :
  subscribed s → healthy (host s) →
  ∃ s', commitSystemChangeEffect s = (Normal tt, s') ∧ warnings s' = warnings s.
Proof.
  intros Hs Hh. unfold commitSystemChangeEffect, bind at 1 2, gets.
  case_bool_decide; [exists s; split; reflexivity|].
  destruct (cleanup_before_rerun s Hs) as (s1 & Hrun & _).
  assert (F1 : host s1 = host s ∧ warnings s1 = warnings s).
  { destruct (cleanup s) as [c|] eqn:Hc.
    - destruct (runCleanup_unsubscribes s _ Hs Hc) as (Hr & _).
      rewrite Hr in Hrun. injection Hrun as <-. split; reflexivity.
    - injection Hrun as <-. split; reflexivity. }
  destruct F1 as [Hh1 Hw1].
  unfold bind at 1 2, gets. rewrite Hrun. unfold bind at 1, modify.
  destruct (systemChangeEffect_healthy (theme s) (with_subscription (theme s) None s1))
    as (c & s2 & H2 & Hw2); [simpl; rewrite Hh1; exact Hh|].
  unfold bind at 1. rewrite H2. eexists. split; [reflexivity|].
  simpl in *. congruence.
Qed.

Lemma step_healthy key ev s :
  subscription_invariant s → healthy (host s) →
  ∃ s', step key ev s = (Normal tt, s') ∧ warnings s' = warnings s.
Proof.
  intros [_ Hs] Hh. pose proof Hh as (Hw & _ & Hset & Hm & _).
  destruct ev as [p|b]; simpl.
  - unfold bind at 1. rewrite setTheme_exact by exact Hw.
    destruct (commit_healthy (setTheme_outcome key p s)) as (s' & H & Hws).
    + exact (same_subscription_subscribed _ _ (same_subscription_setTheme key p s) Hs).
    + rewrite host_setTheme_outcome. exact Hh.
    + exists s'. split; [exact H|].
      rewrite Hws, setTheme_outcome_warnings, Hset, healthy_resolution_warnings by exact Hm.
      simpl. apply app_nil_r.
  - destruct (systemThemeChanges_frame b s) as (s1 & H1 & Hh1 & _ & _ & _ & Hw1 & F).
    unfold bind at 1. rewrite H1.
    destruct (commit_healthy s1) as (s' & H & Hws).
    + exact (same_subscription_subscribed _ _ F Hs).
    + rewrite Hh1. exact Hh.
    + exists s'. split; [exact H|congruence].
Qed.

Lemma run_healthy key evs s :
  subscription_invariant s → healthy (host s) →
  ∃ s', run key evs s = (Normal tt, s') ∧ warnings s' = warnings s.
Proof.
  revert s. induction evs as [|ev rest IH]; intros s Hinv Hh; simpl.
  - exists s. split; reflexivity.
  - destruct (step_healthy key ev s Hinv Hh) as (s1 & H1 & Hw1).
    pose proof Hinv as (_ & Hw & _).
    destruct (IH s1) as (s' & H2 & Hw2).
    + exact (step_invariant _ _ _ _ Hinv H1).
    + destruct (step_choice _ _ _ _ _ Hw H1) as (-> & _). exact Hh.
    + exists s'. unfold bind. rewrite H1. split; [exact H2|congruence].
Qed.

Lemma mount_healthy d key s :
  healthy (host s) → own_listeners s = [] →
  ∃ s', mount d key s = (Normal tt, s') ∧ warnings s' = warnings s.
Proof.
  intros Hh Hown. pose proof Hh as (Hw & Hg & _ & Hm & _).
  unfold mount, bind at 1 2, modify.
  rewrite initializeEffect_exact by exact Hw.
  set (s1 := initialize_outcome _ _ _).
  assert (Hh1 : host s1 = host s) by (unfold s1; rewrite host_initialize_outcome; reflexivity).
  assert (Hw1 : warnings s1 = warnings s).
  { unfold s1. rewrite initialize_outcome_warnings. unfold read_warnings. simpl.
    rewrite Hg. rewrite healthy_resolution_warnings by exact Hm. simpl. apply app_nil_r. }
  assert (Hl1 : listeners s1 = listeners s).
  { unfold s1, initialize_outcome. simpl. set (w1 := warned (read_warnings _) _).
    transitivity (listeners w1); [destruct (resolution_warnings _ _); reflexivity|].
    unfold w1. destruct (read_warnings _); reflexivity. }
  destruct (systemChangeEffect_healthy d s1) as (c & s2 & H1 & Hw2);
    [rewrite Hh1; exact Hh|].
  unfold bind at 1. rewrite H1. unfold bind at 1, modify.
  pose proof (systemChangeEffect_frame _ _ _ _ H1) as (Hh2 & _).
  apply systemChangeEffect_subscribes in H1;
    [|congruence|unfold own_listeners; rewrite Hl1; exact Hown].
  destruct (commit_healthy _ H1) as (s' & H & Hws); [simpl; rewrite Hh2, Hh1; exact Hh|].
  exists s'. split; [exact H|]. simpl in Hws. congruence.
Qed.

(** X9. In a browser in which nothing throws (storage and [matchMedia]
    work, a registration API of the media query works when it is
    present), on a page where no closure of the listener is registered:
    mounting the provider and any sequence of choices and of changes of
    the OS signal runs to the end without throwing, and logs no warning
    at all. *)
Theorem healthy_session_never_throws_nor_warns
    (d : ThemePreference) (key : string) (evs : list event) (s0 : State) :
  healthy (host s0) →
  own_listeners s0 = [] →
  ∃ s, session d key evs s0 = (Normal tt, s) ∧ warnings s = warnings s0.
Proof.
  intros Hh Hown. pose proof Hh as (Hw & _).
  destruct (mount_healthy d key s0 Hh Hown) as (s1 & H1 & Hw1).
  destruct (run_healthy key evs s1) as (s & H2 & Hw2).
  - exact (mount_invariant _ _ _ _ Hw Hown H1).
  - destruct (mount_frame _ _ _ _ _ Hw H1) as (-> & _). exact Hh.
  - exists s. unfold session, bind. rewrite H1. split; [exact H2|congruence].
Qed.

(** ** Without a window *)

Lemma same_browser_trans s1 s2 s3 :
  same_browser s1 s2 → same_browser s2 s3 → same_browser s1 s3.
Proof. unfold same_browser. intuition congruence. Qed.

Lemma setTheme_no_window key p s :
  has_window (host s) = false → setTheme key p s = (Normal tt, with_theme p s).
Proof.
  intros Hw. unfold setTheme, saveTheme, resolveTheme, getSystemTheme, applyTheme.
  eff_simpl. rewrite Hw. simpl.
  destruct p; simpl; rewrite ?Hw; simpl; rewrite ?Hw; reflexivity.
Qed.

Lemma initializeEffect_no_window d key s :
  has_window (host s) = false →
  ∃ r, initializeEffect d key s = (Normal tt, with_resolvedTheme r (with_theme d s)).
Proof.
  intros Hw. unfold initializeEffect, getStoredTheme, resolveTheme,
    getSystemTheme, applyTheme, or_default.
  eff_simpl. rewrite Hw. simpl.
  destruct d; simpl; rewrite ?Hw; simpl; rewrite ?Hw; eexists; reflexivity.
Qed.

Lemma dispatch_no_window registered b s :
  has_window (host s) = false →
  ∃ s', dispatch registered b s = (Normal tt, s') ∧
        same_browser s s' ∧ theme s' = theme s ∧ cleanup s' = cleanup s ∧
        rendered_theme s' = rendered_theme s.
Proof.
  revert s. induction registered as [|[api f] rest IH]; intros s Hw; simpl.
  - exists s. repeat split.
  - assert (∃ s1, invoke f b s = (Normal tt, s1) ∧ same_browser s s1 ∧
                  theme s1 = theme s ∧ cleanup s1 = cleanup s ∧
                  rendered_theme s1 = rendered_theme s)
      as (s1 & H1 & F1 & Ht1 & Hc1 & Hr1).
    { destruct f; simpl.
      - unfold handleSystemThemeChange, applyTheme. eff_simpl. rewrite Hw. simpl.
        eexists. split; [reflexivity|]. repeat split.
      - exists s. repeat split. }
    destruct (IH s1) as (s' & H2 & F2 & Ht2 & Hc2 & Hr2);
      [destruct F1 as (-> & _); exact Hw|].
    exists s'. unfold bind. rewrite H1.
    split; [exact H2|]. split; [exact (same_browser_trans _ _ _ F1 F2)|].
    repeat split; congruence.
Qed.

Lemma commit_no_window s :
  has_window (host s) = false → cleanup s = None →
  ∃ s', commitSystemChangeEffect s = (Normal tt, s') ∧
        same_browser s s' ∧ theme s' = theme s ∧ cleanup s' = None.
Proof.
  intros Hw Hc. unfold commitSystemChangeEffect, bind, gets, modify, ret.
  case_bool_decide; [exists s; repeat split; exact Hc|].
  rewrite Hc. rewrite systemChangeEffect_no_window by exact Hw.
  eexists. split; [reflexivity|]. repeat split.
Qed.

Lemma step_no_window key ev s :
  has_window (host s) = false → cleanup s = None →
  ∃ s', step key ev s = (Normal tt, s') ∧ same_browser s s' ∧
        theme s' = last_choice [ev] (theme s) ∧ cleanup s' = None.
Proof.
  intros Hw Hc. destruct ev as [p|b]; simpl.
  - unfold bind at 1. rewrite setTheme_no_window by exact Hw.
    destruct (commit_no_window (with_theme p s) Hw Hc) as (s' & H & F & Ht & Hc').
    exists s'. split; [exact H|]. split; [exact F|]. split; [exact Ht|exact Hc'].
  - unfold systemThemeChanges, bind at 1 2 3, modify, gets.
    destruct (dispatch_no_window (listeners (with_prefers_dark b s)) b
                (with_prefers_dark b s) Hw) as (s1 & H1 & F1 & Ht1 & Hc1 & _).
    rewrite H1.
    destruct (commit_no_window s1) as (s' & H & F & Ht & Hc');
      [destruct F1 as (-> & _); exact Hw|simpl in Hc1; congruence|].
    exists s'. split; [exact H|].
    split; [exact (same_browser_trans s s1 s' F1 F)|].
    split; [simpl in Ht1; congruence|exact Hc'].
Qed.

Lemma run_no_window key evs s :
  has_window (host s) = false → cleanup s = None →
  ∃ s', run key evs s = (Normal tt, s') ∧ same_browser s s' ∧
        theme s' = last_choice evs (theme s).
Proof.
  revert s. induction evs as [|ev rest IH]; intros s Hw Hc; simpl.
  - exists s. repeat split.
  - destruct (step_no_window key ev s Hw Hc) as (s1 & H1 & F1 & Ht1 & Hc1).
    destruct (IH s1) as (s' & H2 & F2 & Ht2);
      [destruct F1 as (-> & _); exact Hw|exact Hc1|].
    exists s'. unfold bind. rewrite H1. split; [exact H2|].
    split; [exact (same_browser_trans _ _ _ F1 F2)|].
    rewrite Ht2, Ht1. destruct ev; reflexivity.
Qed.

(** X10. Where there is no window (the component is run on a server), a
    whole life of the provider (mounting, any choices, any deliveries of
    a change event) returns normally and does nothing to the outside: the
    storage is not written, the class list and the listeners of the media
    query are untouched, nothing is logged; the preference
    in memory is the last one chosen, and the default when none was. *)
Theorem session_without_window_is_inert
    (d : ThemePreference) (key : string) (evs : list event) (s0 : State) :
  has_window (host s0) = false →
  ∃ s, session d key evs s0 = (Normal tt, s) ∧
       items s = items s0 ∧ classList s = classList s0 ∧
       listeners s = listeners s0 ∧ warnings s = warnings s0 ∧
       theme s = last_choice evs d.
Proof.
  intros Hw. unfold session, mount, bind, modify.
  set (s1 := with_subscription d None (with_resolvedTheme light (with_theme d s0))).
  destruct (initializeEffect_no_window d key s1 Hw) as (r & Hinit). rewrite Hinit.
  rewrite systemChangeEffect_no_window by exact Hw.
  destruct (commit_no_window
              (with_subscription d None (with_resolvedTheme r (with_theme d s1))) Hw eq_refl)
    as (s2 & H2 & F2 & Ht2 & Hc2).
  rewrite H2.
  destruct (run_no_window key evs s2) as (s & H & F & Ht);
    [destruct F2 as (-> & _); exact Hw|exact Hc2|].
  exists s. split; [exact H|].
  destruct (same_browser_trans _ _ _ F2 F) as (_ & -> & -> & -> & ->).
  rewrite Ht, Ht2. repeat split.
Qed.

(** ** Choosing [system] where [matchMedia] throws *)

(** The render that follows a change of [theme] to [system] throws out of
    the subscribing effect when [matchMedia] does. *)
Lemma commit_throws s s1 e :
  has_window (host s) = true → theme s = system → rendered_theme s ≠ system →
  matchMedia_error (host s) = Some e →
  match cleanup s with Some c => runCleanup c | None => ret tt end s = (Normal tt, s1) →
  ∃ s', commitSystemChangeEffect s = (Throw e, s') ∧ same_theme s s'.
Proof.
  intros Hw Ht Hr Hm Hrun.
  destruct (commitSystemChangeEffect s) as [c s'] eqn:H.
  pose proof (commitSystemChangeEffect_frame _ _ _ H) as F.
  exists s'. split; [|exact F]. f_equal.
  unfold commitSystemChangeEffect in H. unfold bind at 1 2, gets in H.
  rewrite bool_decide_eq_false_2 in H by congruence.
  unfold bind at 1 2, gets in H. rewrite Hrun in H.
  unfold bind at 1, modify in H.
  assert (Hh1 : host s1 = host s).
  { destruct (cleanup s); [exact (proj1 (runCleanup_frame _ _ _ _ Hrun))|].
    injection Hrun as <-. reflexivity. }
  rewrite Ht in H. unfold bind at 1 in H.
  rewrite systemChangeEffect_system in H by (simpl; congruence).
  unfold listening in H. simpl in H. rewrite Hh1, Hm in H.
  injection H as <- _. reflexivity.
Qed.

Lemma mount_throws_on_stored_system d key s e :
  has_window (host s) = true → getItem_error (host s) = None →
  items s !! key = Some "system" → matchMedia_error (host s) = Some e →
  (mount d key s).1 = Throw e.
Proof.
  intros Hw Hg Hi Hm.
  destruct (mount d key s) as [c s'] eqn:H. simpl.
  pose proof (mount_frame _ _ _ _ _ Hw H) as (_ & Ht & _).
  assert (Hp : or_default d (persisted key s) = system).
  { unfold persisted. rewrite Hg, Hi. reflexivity. }
  rewrite Hp in Ht.
  unfold mount, bind at 1 2, modify in H.
  rewrite initializeEffect_exact in H by exact Hw.
  set (s1 := initialize_outcome _ _ _) in H.
  assert (Hh1 : host s1 = host s) by (unfold s1; rewrite host_initialize_outcome; reflexivity).
  assert (Ht1 : theme s1 = system).
  { unfold s1, initialize_outcome. cbn [theme applied with_resolvedTheme with_classList with_theme].
    change (persisted key _) with (persisted key s). exact Hp. }
  destruct (decide (d = system)) as [->|Hd].
  - unfold bind at 1 in H.
    rewrite systemChangeEffect_system in H by congruence.
    unfold listening in H. rewrite Hh1, Hm in H. injection H as <- _. reflexivity.
  - unfold bind at 1 in H.
    rewrite systemChangeEffect_literal in H by exact Hd.
    unfold bind at 1, modify in H.
    destruct (commit_throws (with_subscription d None s1) (with_subscription d None s1) e)
      as (s2 & H2 & _).
    + change (has_window (host s1) = true). congruence.
    + exact Ht1.
    + exact Hd.
    + change (matchMedia_error (host s1) = Some e). congruence.
    + reflexivity.
    + rewrite H2 in H. injection H as <- _. reflexivity.
Qed.

(** X11. In a browser with a window whose [matchMedia] throws, where
    storage works: a life that ran normally so far has a preference
    other than [system]; when the user then chooses [system], the choice
    is written to the storage and the event throws out of the subscribing
    effect; and from then on every page that loads with that storage
    throws at mounting, whatever its default preference, until the
    stored value is changed by other means. *)
Theorem choosing_system_without_matchMedia_breaks_every_load
    (d : ThemePreference) (key : string) (evs : list event) (s0 s : State)
    (e : js_error) :
  has_window (host s0) = true →
  own_listeners s0 = [] →
  matchMedia_error (host s0) = Some e →
  getItem_error (host s0) = None →
  setItem_error (host s0) = None →
  session d key evs s0 = (Normal tt, s) →
  theme s ≠ system ∧
  ∃ s', step key (UserSetsTheme system) s = (Throw e, s') ∧
        theme s' = system ∧ items s' !! key = Some "system" ∧
        ∀ d' reloaded, host reloaded = host s0 → items reloaded = items s' →
                       (mount d' key reloaded).1 = Throw e.
Proof.
  intros Hw Hown Hm Hg Hs H.
  destruct (session_invariants _ _ _ _ _ Hw Hown H) as (Hinv & _ & _ & Hh & Hmedia).
  assert (Hne : theme s ≠ system).
  { intros Hsys. specialize (Hmedia Hsys). congruence. }
  split; [exact Hne|].
  destruct Hinv as (Hdep & Hsub).
  pose proof (same_subscription_setTheme key system s) as F.
  pose proof (same_subscription_subscribed _ _ F Hsub) as Hsub1.
  destruct (cleanup_before_rerun _ Hsub1) as (s1 & Hrun & _).
  destruct (commit_throws (setTheme_outcome key system s) s1 e) as (s' & H' & F').
  - rewrite host_setTheme_outcome. congruence.
  - apply setTheme_outcome_theme.
  - destruct F as (_ & _ & _ & -> & _). congruence.
  - rewrite host_setTheme_outcome. congruence.
  - exact Hrun.
  - exists s'. simpl. unfold bind at 1.
    rewrite setTheme_exact by congruence. split; [exact H'|].
    destruct F' as (_ & Hi' & _ & _ & Ht' & _).
    rewrite setTheme_outcome_theme in Ht'.
    rewrite setTheme_outcome_items, Hh, Hs in Hi'.
    assert (Hstored : items s' !! key = Some "system")
      by (rewrite Hi'; apply lookup_insert_eq).
    split; [exact Ht'|]. split; [exact Hstored|].
    intros d' reloaded Hhr Hir.
    apply mount_throws_on_stored_system; rewrite ?Hhr, ?Hir; assumption.
Qed.

(** ** The toggles *)

Lemma click_exact handler key s :
  click handler key s =
    handler {| ctx_theme := theme s; ctx_setTheme := setTheme key;
               ctx_resolvedTheme := resolvedTheme s |} s.
Proof. reflexivity. Qed.

Lemma setTheme_theme key p s :
  ∃ s', setTheme key p s = (Normal tt, s') ∧ theme s' = p.
Proof.
  destruct (has_window (host s)) eqn:Hw.
  - rewrite setTheme_exact by exact Hw. eexists. split; [reflexivity|].
    apply setTheme_outcome_theme.
  - rewrite setTheme_no_window by exact Hw. eexists. split; reflexivity.
Qed.

Lemma step_healthy_invariant key p s :
  subscription_invariant s → healthy (host s) →
  ∃ s', step key (UserSetsTheme p) s = (Normal tt, s') ∧
        subscription_invariant s' ∧ healthy (host s') ∧ theme s' = p.
Proof.
  intros Hinv Hh. pose proof Hinv as (_ & Hw & _).
  destruct (step_healthy key (UserSetsTheme p) s Hinv Hh) as (s' & H & _).
  exists s'. split; [exact H|].
  split; [exact (step_invariant _ _ _ _ Hinv H)|].
  destruct (step_choice _ _ _ _ _ Hw H) as (-> & Ht & _).
  split; [exact Hh|exact Ht].
Qed.

(** X12. A click on [ThemeToggle] is [setTheme] of the preference that
    follows the current one in the cycle light, dark, system.  In a
    browser in which nothing throws, on a mounted provider between two
    events, three clicks in a row, each with the render and the
    subscribing effect it causes, all return normally and bring the
    preference back to where it started, passing through the two other
    preferences on the way.  (Where [matchMedia] throws, the click from
    dark to [system] throws out of the subscribing effect instead.) *)
Theorem ThemeToggle_click_cycles
    (d : ThemePreference) (key : string) (evs : list event) (s0 s : State) :
  healthy (host s0) →
  own_listeners s0 = [] →
  session d key evs s0 = (Normal tt, s) →
  click ThemeToggle.handleThemeToggle key s =
    setTheme key
      (match theme s with
       | pref_light => pref_dark
       | pref_dark => system
       | system => pref_light
       end) s ∧
  ∃ s1 s2 s3,
    clickAndRender ThemeToggle.handleThemeToggle key s = (Normal tt, s1) ∧
    clickAndRender ThemeToggle.handleThemeToggle key s1 = (Normal tt, s2) ∧
    clickAndRender ThemeToggle.handleThemeToggle key s2 = (Normal tt, s3) ∧
    theme s3 = theme s ∧
    theme s1 ≠ theme s ∧ theme s2 ≠ theme s ∧ theme s2 ≠ theme s1.
Proof.
  intros Hh0 Hown H.
  set (next := fun p => match p with
                        | pref_light => pref_dark
                        | pref_dark => system
                        | system => pref_light
                        end).
  assert (Hclick : ∀ s, click ThemeToggle.handleThemeToggle key s =
                        setTheme key (next (theme s)) s).
  { intros s'. rewrite click_exact. unfold ThemeToggle.handleThemeToggle, next. simpl.
    destruct (theme s'); reflexivity. }
  assert (Hrender : ∀ s, clickAndRender ThemeToggle.handleThemeToggle key s =
                         step key (UserSetsTheme (next (theme s))) s).
  { intros s'. unfold clickAndRender, step, bind. rewrite Hclick. reflexivity. }
  split; [apply Hclick|].
  pose proof Hh0 as (Hw0 & _).
  destruct (session_invariants _ _ _ _ _ Hw0 Hown H) as (Hinv & _ & _ & Hhost & _).
  assert (Hh : healthy (host s)) by (rewrite Hhost; exact Hh0).
  destruct (step_healthy_invariant key (next (theme s)) s Hinv Hh)
    as (s1 & H1 & Hinv1 & Hh1 & Ht1).
  destruct (step_healthy_invariant key (next (theme s1)) s1 Hinv1 Hh1)
    as (s2 & H2 & Hinv2 & Hh2 & Ht2).
  destruct (step_healthy_invariant key (next (theme s2)) s2 Hinv2 Hh2)
    as (s3 & H3 & _ & _ & Ht3).
  exists s1, s2, s3. rewrite !Hrender.
  split; [exact H1|]. split; [exact H2|]. split; [exact H3|].
  rewrite Ht3, Ht2, Ht1. unfold next. destruct (theme s); repeat split; discriminate.
Qed.

(** X13. The text [ThemeToggle] shows tells the state apart: two
    contexts with the same display text have the same preference, and
    under [system] the same resolved theme. *)
Theorem ThemeToggle_display_text_identifies_state (context context' : ThemeContextType) :
  ThemeToggle.getThemeDisplayText context = ThemeToggle.getThemeDisplayText context' →
  ctx_theme context = ctx_theme context' ∧
  (ctx_theme context = system → ctx_resolvedTheme context = ctx_resolvedTheme context').
Proof.
  unfold ThemeToggle.getThemeDisplayText.
  destruct (ctx_theme context), (ctx_theme context'),
    (ctx_resolvedTheme context), (ctx_resolvedTheme context');
    simpl; intros H; try discriminate; split; try reflexivity; intros; try discriminate;
    reflexivity.
Qed.

(** X14. With a window, a click on [ThemeToggleIcon] returns normally,
    sets the preference to the opposite of the resolved theme, a literal
    one even when the preference was [system], and the resolved theme
    becomes that opposite; the label of the button before the click names
    exactly the preference the click sets.  A second click brings the
    resolved theme back, but not a preference [system]: the preference is
    then the literal value the OS had resolved to. *)
Theorem ThemeToggleIcon_click_flips (key : string) (s : State) :
  has_window (host s) = true →
  ∃ s1 s2,
    click ThemeToggleIcon.handleThemeToggle key s = (Normal tt, s1) ∧
    theme s1 = as_preference (other (resolvedTheme s)) ∧
    resolvedTheme s1 = other (resolvedTheme s) ∧
    (∀ context, contextValue key s = (Normal context, s) →
       ThemeToggleIcon.getAriaLabel context =
         String.append "Switch to " (String.append (preference_string (theme s1)) " theme")) ∧
    click ThemeToggleIcon.handleThemeToggle key s1 = (Normal tt, s2) ∧
    theme s2 = as_preference (resolvedTheme s) ∧
    resolvedTheme s2 = resolvedTheme s.
Proof.
  intros Hw.
  assert (Hclick : ∀ s, has_window (host s) = true →
            click ThemeToggleIcon.handleThemeToggle key s =
              (Normal tt, setTheme_outcome key (as_preference (other (resolvedTheme s))) s)).
  { intros s' Hw'. rewrite click_exact. unfold ThemeToggleIcon.handleThemeToggle. simpl.
    rewrite <- setTheme_exact by exact Hw'.
    destruct (resolvedTheme s'); reflexivity. }
  set (s1 := setTheme_outcome key (as_preference (other (resolvedTheme s))) s).
  assert (Hr1 : resolvedTheme s1 = other (resolvedTheme s)).
  { unfold s1. rewrite setTheme_outcome_resolvedTheme. destruct (resolvedTheme s); reflexivity. }
  assert (Ht1 : theme s1 = as_preference (other (resolvedTheme s))).
  { apply setTheme_outcome_theme. }
  assert (Hw1 : has_window (host s1) = true).
  { unfold s1. rewrite host_setTheme_outcome. exact Hw. }
  exists s1, (setTheme_outcome key (as_preference (other (resolvedTheme s1))) s1).
  split; [apply Hclick; exact Hw|]. split; [exact Ht1|]. split; [exact Hr1|].
  split; [|split; [apply Hclick; exact Hw1|]].
  - intros context [= <-]. rewrite Ht1. unfold ThemeToggleIcon.getAriaLabel.
    cbn [ctx_resolvedTheme]. destruct (resolvedTheme s); reflexivity.
  - rewrite setTheme_outcome_theme, setTheme_outcome_resolvedTheme, Hr1.
    destruct (resolvedTheme s); split; reflexivity.
Qed.

(** ** The further properties at concrete pages *)

Lemma getStoredTheme_reads_exact_names_witness :
  ∃ r, getStoredTheme "portfolio-theme"
         (loaded browser {[ "portfolio-theme" := "Dark" ]} false)
       = (Normal r, loaded browser {[ "portfolio-theme" := "Dark" ]} false).
Proof.
  destruct (getStoredTheme_reads_exact_names "portfolio-theme"
              (loaded browser {[ "portfolio-theme" := "Dark" ]} false) eq_refl eq_refl)
    as (r & H & _).
  exists r. exact H.
Defined.

Lemma setTheme_writes_own_key_only_witness :
  items (setTheme "portfolio-theme" pref_dark
           (loaded browser {[ "test-theme" := "light" ]} false)).2 !! "test-theme"
  = items (loaded browser {[ "test-theme" := "light" ]} false) !! "test-theme".
Proof.
  apply (setTheme_writes_own_key_only "portfolio-theme" "test-theme" pref_dark system
           (loaded browser {[ "test-theme" := "light" ]} false) eq_refl).
  discriminate.
Defined.

Lemma setTheme_unsaved_choice_is_lost_witness :
  ∃ r s',
    initialize system "portfolio-theme"
      (loaded browser
         (items (setTheme "portfolio-theme" pref_dark
                   (loaded full_storage_browser {[ "portfolio-theme" := "light" ]} false)).2)
         false)
    = (Normal
         (or_default system
            (valid_theme
               (items (loaded full_storage_browser {[ "portfolio-theme" := "light" ]} false)
                  !! "portfolio-theme")), r), s').
Proof.
  apply (setTheme_unsaved_choice_is_lost "portfolio-theme" pref_dark system
           (loaded full_storage_browser {[ "portfolio-theme" := "light" ]} false)
           (loaded browser
              (items (setTheme "portfolio-theme" pref_dark
                        (loaded full_storage_browser {[ "portfolio-theme" := "light" ]} false)).2)
              false)
           (JsError "QuotaExceededError"));
    reflexivity.
Defined.

Lemma setTheme_last_call_wins_witness :
  classList (setTheme "portfolio-theme" pref_light
               (setTheme "portfolio-theme" pref_dark (loaded browser ∅ false)).2).2
  = classList (setTheme "portfolio-theme" pref_light (loaded browser ∅ false)).2.
Proof.
  destruct (setTheme_last_call_wins "portfolio-theme" pref_dark pref_light
              (loaded browser ∅ false) eq_refl) as (_ & _ & H & _).
  exact H.
Defined.

Lemma session_keeps_last_choice_witness :
  theme (session system "portfolio-theme"
           [UserSetsTheme pref_dark; SystemThemeChanges false] (loaded browser ∅ true)).2
  = pref_dark.
Proof.
  set (s := (session system "portfolio-theme"
               [UserSetsTheme pref_dark; SystemThemeChanges false] (loaded browser ∅ true)).2).
  assert (Hrun : session system "portfolio-theme"
                   [UserSetsTheme pref_dark; SystemThemeChanges false] (loaded browser ∅ true)
                 = (Normal tt, s)) by (vm_compute; reflexivity).
  destruct (session_keeps_last_choice system "portfolio-theme"
              [UserSetsTheme pref_dark; SystemThemeChanges false] (loaded browser ∅ true) s
              eq_refl Hrun) as [Ht _].
  rewrite Ht. vm_compute. reflexivity.
Defined.

Lemma session_class_list_shape_witness :
  classList (session system "portfolio-theme"
               [UserSetsTheme pref_dark; UserSetsTheme pref_light; UserSetsTheme pref_dark]
               (loaded browser ∅ false)).2
  = ["scroll-smooth"; "dark"].
Proof.
  rewrite (session_class_list_shape system "portfolio-theme"
             [UserSetsTheme pref_dark; UserSetsTheme pref_light; UserSetsTheme pref_dark]
             (loaded browser ∅ false) _ _ eq_refl (surjective_pairing _)).
  vm_compute. reflexivity.
Defined.

Lemma session_resolved_follows_preference_witness :
  as_preference
    (resolvedTheme (session system "portfolio-theme"
                      [UserSetsTheme pref_light; SystemThemeChanges true]
                      (loaded browser ∅ false)).2)
  = pref_light.
Proof.
  set (s := (session system "portfolio-theme"
               [UserSetsTheme pref_light; SystemThemeChanges true] (loaded browser ∅ false)).2).
  assert (Hrun : session system "portfolio-theme"
                   [UserSetsTheme pref_light; SystemThemeChanges true] (loaded browser ∅ false)
                 = (Normal tt, s)) by (vm_compute; reflexivity).
  destruct (session_resolved_follows_preference system "portfolio-theme"
              [UserSetsTheme pref_light; SystemThemeChanges true] (loaded browser ∅ false) s
              eq_refl eq_refl Hrun) as [H _].
  rewrite H by (vm_compute; discriminate). vm_compute. reflexivity.
Defined.

Lemma session_listener_discipline_witness :
  ∃ s', unmount (session system "portfolio-theme" [SystemThemeChanges true]
                   (loaded legacy_browser ∅ false)).2 = (Normal tt, s') ∧
        listeners s' = [(ViaAddEventListener, OtherCallback 0)].
Proof.
  set (s := (session system "portfolio-theme" [SystemThemeChanges true]
               (loaded legacy_browser ∅ false)).2).
  assert (Hrun : session system "portfolio-theme" [SystemThemeChanges true]
                   (loaded legacy_browser ∅ false) = (Normal tt, s))
    by (vm_compute; reflexivity).
  destruct (session_listener_discipline system "portfolio-theme"
              [SystemThemeChanges true] (loaded legacy_browser ∅ false) s
              eq_refl eq_refl Hrun) as (_ & _ & s' & H & Hl & _).
  exists s'. split; [exact H|exact Hl].
Defined.

Lemma healthy_session_never_throws_nor_warns_witness :
  ∃ s, session system "portfolio-theme"
         [UserSetsTheme pref_dark; SystemThemeChanges true; UserSetsTheme system]
         (loaded legacy_browser ∅ false) = (Normal tt, s) ∧
       warnings s = warnings (loaded legacy_browser ∅ false).
Proof.
  apply (healthy_session_never_throws_nor_warns system "portfolio-theme"
           [UserSetsTheme pref_dark; SystemThemeChanges true; UserSetsTheme system]
           (loaded legacy_browser ∅ false)).
  - repeat split; try reflexivity; discriminate.
  - reflexivity.
Defined.

Lemma session_without_window_is_inert_witness :
  ∃ s, session system "portfolio-theme" [UserSetsTheme pref_dark]
         (loaded server ∅ false) = (Normal tt, s) ∧
       items s = items (loaded server ∅ false) ∧
       classList s = classList (loaded server ∅ false) ∧
       listeners s = listeners (loaded server ∅ false) ∧
       warnings s = warnings (loaded server ∅ false) ∧
       theme s = last_choice [UserSetsTheme pref_dark] system.
Proof.
  apply (session_without_window_is_inert system "portfolio-theme"
           [UserSetsTheme pref_dark] (loaded server ∅ false)).
  reflexivity.
Defined.

Lemma choosing_system_without_matchMedia_breaks_every_load_witness :
  ∃ s', step "portfolio-theme" (UserSetsTheme system)
          (session pref_light "portfolio-theme" [UserSetsTheme pref_dark]
             (loaded old_browser ∅ false)).2
        = (Throw (JsError "matchMedia not supported"), s') ∧
        theme s' = system.
Proof.
  set (s := (session pref_light "portfolio-theme" [UserSetsTheme pref_dark]
               (loaded old_browser ∅ false)).2).
  assert (Hrun : session pref_light "portfolio-theme" [UserSetsTheme pref_dark]
                   (loaded old_browser ∅ false) = (Normal tt, s))
    by (vm_compute; reflexivity).
  destruct (choosing_system_without_matchMedia_breaks_every_load pref_light
              "portfolio-theme" [UserSetsTheme pref_dark] (loaded old_browser ∅ false) s
              (JsError "matchMedia not supported")
              eq_refl eq_refl eq_refl eq_refl eq_refl Hrun)
    as (_ & s' & H & Ht & _).
  exists s'. split; [exact H|exact Ht].
Defined.

Lemma ThemeToggle_display_text_identifies_state_witness :
  ctx_theme {| ctx_theme := system; ctx_setTheme := setTheme "portfolio-theme";
               ctx_resolvedTheme := dark |}
  = ctx_theme {| ctx_theme := system; ctx_setTheme := setTheme "test-theme";
                 ctx_resolvedTheme := dark |}.
Proof.
  apply (ThemeToggle_display_text_identifies_state
           {| ctx_theme := system; ctx_setTheme := setTheme "portfolio-theme";
              ctx_resolvedTheme := dark |}
           {| ctx_theme := system; ctx_setTheme := setTheme "test-theme";
              ctx_resolvedTheme := dark |}).
  reflexivity.
Defined.

Lemma ThemeToggleIcon_click_flips_witness :
  ∃ s1, click ThemeToggleIcon.handleThemeToggle "portfolio-theme"
          (loaded browser ∅ true) = (Normal tt, s1) ∧
        theme s1 = pref_dark.
Proof.
  destruct (ThemeToggleIcon_click_flips "portfolio-theme" (loaded browser ∅ true) eq_refl)
    as (s1 & _ & H & Ht & _).
  exists s1. split; [exact H|exact Ht].
Defined.

(** ** The failure of the OS query reaches the consumer *)

Lemma mount_throws_adopting_system d key s e :
  has_window (host s) = true → matchMedia_error (host s) = Some e →
  or_default d (persisted key s) = system →
  ∃ s', mount d key s = (Throw e, s').
Proof.
  intros Hw Hm Hp.
  destruct (mount d key s) as [c s'] eqn:H. exists s'. f_equal.
  unfold mount, bind at 1 2, modify in H.
  rewrite initializeEffect_exact in H by exact Hw.
  set (s1 := initialize_outcome _ _ _) in H.
  assert (Hh1 : host s1 = host s) by (unfold s1; rewrite host_initialize_outcome; reflexivity).
  assert (Ht1 : theme s1 = system).
  { unfold s1, initialize_outcome. cbn [theme applied with_resolvedTheme with_classList with_theme].
    change (persisted key _) with (persisted key s). exact Hp. }
  destruct (decide (d = system)) as [->|Hd].
  - unfold bind at 1 in H.
    rewrite systemChangeEffect_system in H by congruence.
    unfold listening in H. rewrite Hh1, Hm in H. injection H as <- _. reflexivity.
  - unfold bind at 1 in H.
    rewrite systemChangeEffect_literal in H by exact Hd.
    unfold bind at 1, modify in H.
    destruct (commit_throws (with_subscription d None s1) (with_subscription d None s1) e)
      as (s2 & H2 & _).
    + change (has_window (host s1) = true). congruence.
    + exact Ht1.
    + exact Hd.
    + change (matchMedia_error (host s1) = Some e). congruence.
    + reflexivity.
    + rewrite H2 in H. injection H as <- _. reflexivity.
Qed.

(** C6. On a page with a window whose OS query throws, whenever the
    provider adopts [system] at mounting (stored, or by default): the
    resolution does fall back, the first effect returns normally with the
    pair [(system, light)] and the warning in the log; but the same
    mounting then throws the error of the OS query out of the subscribing
    effect, with [theme = system] and [resolvedTheme = light] already in
    place: the failure reaches the consumer. *)
Theorem os_signal_failure_surfaces
    (d : ThemePreference) (key : string) (s : State) (e : js_error) :
  has_window (host s) = true →
  matchMedia_error (host s) = Some e →
  or_default d (persisted key s) = system →
  (∃ s1, initialize d key s = (Normal (system, light), s1) ∧
         detection_warning e ∈ warnings s1) ∧
  ∃ s', mount d key s = (Throw e, s') ∧
        theme s' = system ∧ resolvedTheme s' = light ∧ marker_is light s'.
Proof.
  intros Hw Hm Hp.
  assert (Hres : resolution system s = light).
  { unfold resolution. rewrite Hm. reflexivity. }
  split.
  - exists (initialize_outcome d key s).
    rewrite initialize_exact by exact Hw. rewrite Hp, Hres.
    split; [reflexivity|].
    rewrite initialize_outcome_warnings, Hp.
    unfold resolution_warnings. rewrite Hm.
    rewrite app_assoc. apply elem_of_app. right.
    apply list_elem_of_singleton. reflexivity.
  - destruct (mount_throws_adopting_system d key s e Hw Hm Hp) as (s' & H).
    exists s'. split; [exact H|].
    destruct (mount_frame _ _ _ _ _ Hw H) as (_ & Ht & _ & _ & Hr & _).
    rewrite Hp in Ht, Hr. rewrite Hres in Hr.
    split; [exact Ht|]. split; [exact Hr|].
    destruct (mount_themed _ _ _ _ _ Hw H) as [Hth _].
    unfold themed in Hth. rewrite Hr in Hth. exact Hth.
Qed.

Lemma os_signal_failure_surfaces_witness :
  ∃ s', mount system "portfolio-theme" (loaded old_browser ∅ false)
        = (Throw (JsError "matchMedia not supported"), s') ∧
        theme s' = system ∧ resolvedTheme s' = light ∧ marker_is light s'.
Proof.
  apply (os_signal_failure_surfaces system "portfolio-theme"
           (loaded old_browser ∅ false) (JsError "matchMedia not supported"));
    reflexivity.
Defined.

Lemma ThemeToggle_click_cycles_witness :
  ∃ s1 s2 s3,
    clickAndRender ThemeToggle.handleThemeToggle "portfolio-theme"
      (session pref_light "portfolio-theme" [] (loaded browser ∅ true)).2 = (Normal tt, s1) ∧
    clickAndRender ThemeToggle.handleThemeToggle "portfolio-theme" s1 = (Normal tt, s2) ∧
    clickAndRender ThemeToggle.handleThemeToggle "portfolio-theme" s2 = (Normal tt, s3) ∧
    theme s3 = theme (session pref_light "portfolio-theme" [] (loaded browser ∅ true)).2.
Proof.
  set (s := (session pref_light "portfolio-theme" [] (loaded browser ∅ true)).2).
  assert (Hrun : session pref_light "portfolio-theme" [] (loaded browser ∅ true)
                 = (Normal tt, s)) by (vm_compute; reflexivity).
  assert (Hh : healthy (host (loaded browser ∅ true)))
    by (repeat split; try reflexivity; discriminate).
  destruct (ThemeToggle_click_cycles pref_light "portfolio-theme" []
              (loaded browser ∅ true) s Hh eq_refl Hrun)
    as (_ & s1 & s2 & s3 & H1 & H2 & H3 & Ht & _).
  exists s1, s2, s3. repeat split; assumption.
Defined.
